(** * scratch-search: the archive index and its faceted full-text search

    A shallow embedding of [scratch-archive/scratch-search.py].

    Conventions of the embedding.
    - A Python [str] is a Rocq [string]; a character is a code point below
      256, and on that range the character classes used by the program
      ([\d], [str.lower], [str.split], [str.splitlines]) are written out
      exactly as Python defines them.
    - A [pathlib] path is the list of its [parts]; an absolute path starts
      with the root part ["/"].
    - The file system is read through a record of observations
      ([exists], the tree walk behind [rglob], [is_symlink], [resolve],
      [is_dir], [read_text]).
    - The SQLite store is a pair of tables (lists of rows, in insertion
      order) with the constraints of [SCHEMA_SQL] checked on insertion; the
      FTS5 query parser and the [rank] column are an interface the search
      is parameterised over.
    - A Python exception that the program does not catch ends the run; it
      is the [Raise] outcome of the embedding. *)

From Stdlib Require Import Ascii ZArith QArith Qcanon.
From stdpp Require Import base list strings sorting pretty gmap.

Open Scope Z_scope.

(** ** Python values *)

Inductive exn : Type :=
  | ValueError
  | OverflowError
  | IndexError.

Inductive py (A : Type) : Type :=
  | Ok (a : A)
  | Raise (e : exn).
Arguments Ok {A} a.
Arguments Raise {A} e.

Definition py_bind {A B} (m : py A) (k : A -> py B) : py B :=
  match m with
  | Ok a => k a
  | Raise e => Raise e
  end.

Notation "'try!' x := m 'in' k" := (py_bind m (fun x => k))
  (at level 10, x name, m at level 100, k at level 200).

(** ** Strings *)

Fixpoint chars (s : string) : list ascii :=
  match s with
  | EmptyString => []
  | String c s' => c :: chars s'
  end.

Fixpoint of_chars (l : list ascii) : string :=
  match l with
  | [] => EmptyString
  | c :: l' => String c (of_chars l')
  end.

Definition code (c : ascii) : nat := nat_of_ascii c.

(** [\d] of the [re] module on code points below 256: the digits 0-9. *)
Definition is_digit (c : ascii) : bool :=
  (48 <=? code c)%nat && (code c <=? 57)%nat.

(** [str.isspace] on code points below 256. *)
Definition is_space (c : ascii) : bool :=
  let k := code c in
  ((9 <=? k)%nat && (k <=? 13)%nat) || ((28 <=? k)%nat && (k <=? 32)%nat)
  || (k =? 133)%nat || (k =? 160)%nat.

(** [str.lower] on code points below 256: A-Z and the upper-case letters of
    the Latin-1 block (all of 0xC0-0xDE but the multiplication sign). *)
Definition lower_char (c : ascii) : ascii :=
  let k := code c in
  if ((65 <=? k)%nat && (k <=? 90)%nat)
     || ((192 <=? k)%nat && (k <=? 222)%nat && negb (k =? 215)%nat)
  then ascii_of_nat (k + 32) else c.

Definition lower (s : string) : string := of_chars (lower_char <$> chars s).

(** The line boundaries of [str.splitlines] below 256. *)
Definition is_linebreak (c : ascii) : bool :=
  let k := code c in
  ((10 <=? k)%nat && (k <=? 13)%nat) || ((28 <=? k)%nat && (k <=? 30)%nat)
  || (k =? 133)%nat.

Definition LF : ascii := "010"%char.
Definition CR : ascii := "013"%char.

(** [s.splitlines()]: [cur] is the line being read, in reverse. A carriage
    return followed by a line feed is one boundary; no empty last line. *)
Fixpoint splitlines_aux (cur : list ascii) (l : list ascii) : list string :=
  match l with
  | [] => match cur with [] => [] | _ => [of_chars (reverse cur)] end
  | c :: l' =>
      if is_linebreak c then
        of_chars (reverse cur) ::
          match l' with
          | c' :: l'' =>
              if decide (c = CR ∧ c' = LF) then splitlines_aux [] l''
              else splitlines_aux [] l'
          | [] => []
          end
      else splitlines_aux (c :: cur) l'
  end.

Definition splitlines (s : string) : list string := splitlines_aux [] (chars s).

(** [s.split()]: the maximal runs of characters that are not white space. *)
Fixpoint split_aux (cur : list ascii) (l : list ascii) : list string :=
  match l with
  | [] => match cur with [] => [] | _ => [of_chars (reverse cur)] end
  | c :: l' =>
      if is_space c then
        match cur with
        | [] => split_aux [] l'
        | _ => of_chars (reverse cur) :: split_aux [] l'
        end
      else split_aux (c :: cur) l'
  end.

Definition split (s : string) : list string := split_aux [] (chars s).

(** [s.replace(c, "")] for a single character [c]. *)
Definition remove_char (c : ascii) (s : string) : string :=
  of_chars (filter (fun x => x ≠ c) (chars s)).

(** [s.split(sep)] for a single character [sep]: empty pieces are kept. *)
Fixpoint split_on_aux (sep : ascii) (cur : list ascii) (l : list ascii) : list string :=
  match l with
  | [] => [of_chars (reverse cur)]
  | c :: l' =>
      if decide (c = sep) then of_chars (reverse cur) :: split_on_aux sep [] l'
      else split_on_aux sep (c :: cur) l'
  end.

Definition split_on (sep : ascii) (s : string) : list string :=
  split_on_aux sep [] (chars s).

Fixpoint lstrip_chars (l : list ascii) : list ascii :=
  match l with
  | c :: l' => if is_space c then lstrip_chars l' else l
  | [] => []
  end.

(** [s.strip()] *)
Definition strip (s : string) : string :=
  of_chars (reverse (lstrip_chars (reverse (lstrip_chars (chars s))))).

Fixpoint starts_with (p l : list ascii) : bool :=
  match p, l with
  | [], _ => true
  | a :: p', b :: l' => bool_decide (a = b) && starts_with p' l'
  | _ :: _, [] => false
  end.

(** [t in s] on strings. *)
Fixpoint contains_chars (t l : list ascii) : bool :=
  starts_with t l ||
  match l with
  | [] => false
  | _ :: l' => contains_chars t l'
  end.

Definition contains (t s : string) : bool := contains_chars (chars t) (chars s).

Definition ends_with (suf s : string) : bool :=
  starts_with (reverse (chars suf)) (reverse (chars s)).

Fixpoint join (sep : string) (l : list string) : string :=
  match l with
  | [] => ""
  | [x] => x
  | x :: l' => x +:+ sep +:+ join sep l'
  end.

(** ** Paths *)

(** The [parts] of a [pathlib] path. *)
Definition Path : Type := list string.

Definition is_root (s : string) : bool :=
  bool_decide (s = "/") || bool_decide (s = "//").

Definition is_absolute (p : Path) : bool :=
  match p with
  | r :: _ => is_root r
  | [] => false
  end.


(** The root that [posixpath.splitroot] finds: exactly two leading slashes
    are kept as ["//"], any other number of them is ["/"]. *)
Definition splitroot (s : string) : option string :=
  match chars s with
  | "/"%char :: "/"%char :: "/"%char :: _ => Some "/"
  | "/"%char :: "/"%char :: _ => Some "//"
  | "/"%char :: _ => Some "/"
  | _ => None
  end.

(** [Path(s).parts]: the root if there is one, then the pieces between
    slashes that are neither empty nor ["."]. *)
Definition parse_parts (s : string) : Path :=
  let tail := filter (fun x => x ≠ "" ∧ x ≠ ".") (split_on "/"%char s) in
  match splitroot s with
  | Some r => r :: tail
  | None => tail
  end.

(** [p / s]: an absolute right operand replaces the left one. *)
Definition joinpath (p : Path) (s : string) : Path :=
  let q := parse_parts s in
  if is_absolute q then q else p ++ q.

(** [str(p)] *)
Definition path_str (p : Path) : string :=
  match p with
  | [] => "."
  | r :: tail => if is_root r then r +:+ join "/" tail else join "/" p
  end.

(** [p.name]: the last part, unless the path is only a root. *)
Definition path_name (p : Path) : string :=
  match reverse p with
  | [] => ""
  | x :: rest => match rest with
                 | [] => if is_root x then "" else x
                 | _ => x
                 end
  end.

(** [p.relative_to(base)]: the parts after [base], or [ValueError] when [p]
    is not below [base]. *)
Fixpoint relative_to (p base : Path) {struct base} : py Path :=
  match base with
  | [] => Ok p
  | b :: base' =>
      match p with
      | x :: p' => if decide (x = b) then relative_to p' base' else Raise ValueError
      | [] => Raise ValueError
      end
  end.


(** ** Module constants *)

Definition SKIP_FILES : list string := [".scratch-index"; ".DS_Store"].
Definition SKIP_DIRS : list string := [".git"].
Definition VALID_TYPES : list string :=
  ["plans"; "context"; "research"; "reviews"; "filebox"; "history"; "prompts"; "features"].

(** [n] characters of class [\d] at the head of [l]; the rest of [l]. *)
Fixpoint match_digits (n : nat) (l : list ascii) : option (list ascii) :=
  match n with
  | O => Some l
  | S n' =>
      match l with
      | c :: l' => if is_digit c then match_digits n' l' else None
      | [] => None
      end
  end.

(** [TIMESTAMP_RE.match(s)] for [TIMESTAMP_RE = re.compile(r"^\d{8}_\d{6}$")]:
    eight digits, an underscore, six digits, and then [$], which the [re]
    module satisfies at the end of the string and also just before a line
    feed that ends the string. *)
Definition TIMESTAMP_RE_match (s : string) : bool :=
  match match_digits 8 (chars s) with
  | Some ("_"%char :: l) =>
      match match_digits 6 l with
      | Some [] => true
      | Some [c] => bool_decide (c = LF)
      | _ => false
      end
  | _ => false
  end.

(** The whole of [s] matches [\d{8}_\d{6}] ([re.fullmatch]). *)
Definition timestamp_fullmatch (s : string) : bool :=
  match match_digits 8 (chars s) with
  | Some ("_"%char :: l) =>
      match match_digits 6 l with
      | Some [] => true
      | _ => false
      end
  | _ => false
  end.

(** ** The path classifier *)

(** The dict that [parse_archive_path] returns. *)
Record facets : Type := Facets {
  f_project : string;
  f_branch : string;
  f_timestamp : string;
  f_dir_type : option string }.

Global Instance facets_eq_dec : EqDecision facets.
Proof. solve_decision. Defined.

Definition parse_archive_path (filepath archive_base : Path) : py (option facets) :=
  try! parts := relative_to filepath archive_base in
  if bool_decide (length parts < 4)%nat then Ok None
  else
    match parts with
    | proj :: br :: ts :: rest =>
        if negb (TIMESTAMP_RE_match ts) then Ok None
        else
          let dir_type :=
            match rest with
            | p3 :: _ =>
                if bool_decide (p3 ∈ VALID_TYPES) then Some p3 else Some "root"
            | [] => None
            end in
          Ok (Some (Facets proj br ts dir_type))
    | _ => Ok None
    end.


(** ** The file system *)

(** What the program observes of the file system. [fs_walk root] lists the
    entries below [root], each as its path relative to [root], in the order
    the traversal behind [rglob] meets them. [fs_read_text] is [None] when
    [read_text(errors="replace")] raises [OSError]. *)
Record filesystem : Type := {
  fs_exists : Path -> bool;
  fs_walk : Path -> list Path;
  fs_is_symlink : Path -> bool;
  fs_resolve : Path -> Path;
  fs_is_dir : Path -> bool;
  fs_read_text : Path -> option string }.

(** [root.rglob(pattern)], the pattern given as its test on an entry's name. *)
Definition rglob (fs : filesystem) (root : Path) (pat : string -> bool) : list Path :=
  (fun rel => root ++ rel) <$> filter (fun rel => pat (path_name rel)) (fs_walk fs root).

Definition glob_latest (name : string) : bool := bool_decide (name = "latest").
Definition glob_md (name : string) : bool := ends_with ".md" name.

Definition resolve_latest_timestamps (fs : filesystem) (archive_base : Path) : gset string :=
  foldl
    (fun latest link =>
       if fs_is_symlink fs link then
         let resolved := fs_resolve fs link in
         if fs_is_dir fs resolved then latest ∪ {[ path_str resolved ]} else latest
       else latest)
    ∅ (rglob fs archive_base glob_latest).

(** ** The index store *)

(** A row of the [documents] table. *)
Record document : Type := Document {
  doc_id : Z;
  project : string;
  branch : string;
  timestamp : string;
  dir_type : option string;
  filepath : string;
  filename : string;
  is_latest : Z;
  indexed_at : string }.

Global Instance document_eq_dec : EqDecision document.
Proof. solve_decision. Defined.

(** The two tables of [SCHEMA_SQL]; a row of [documents_fts] is its [rowid]
    and its [content]. *)
Record database : Type := Database {
  documents : list document;
  documents_fts : list (Z * string) }.

(** The tables after [init_schema]: dropped and created again. *)
Definition init_schema (db : database) : database := Database [] [].

(** [ensure_schema] creates the tables when they are missing and leaves
    existing ones as they are. *)
Definition ensure_schema (db : database) : database := db.

(** [get_db]: the database file is created when it does not exist. *)
Definition get_db (file : option database) : database :=
  match file with
  | Some db => db
  | None => Database [] []
  end.

(** The [id] that SQLite gives a new row of [documents] ([INTEGER PRIMARY
    KEY]): one more than the largest in use, 1 in an empty table. *)
Definition next_rowid (rows : list document) : Z :=
  match rows with
  | [] => 1
  | d :: rest => 1 + foldr Z.max (doc_id d) (doc_id <$> rest)
  end.

(** [INSERT INTO documents ...]; [None] is [sqlite3.IntegrityError], raised
    when the [filepath] is already in the table ([UNIQUE]). The second
    component is [last_insert_rowid()]. *)
Definition insert_document (db : database)
    (proj br ts : string) (dt : option string) (fp fname : string)
    (latest : Z) (now : string) : option (database * Z) :=
  if bool_decide (fp ∈ filepath <$> documents db) then None
  else
    let i := next_rowid (documents db) in
    Some (Database (documents db ++ [Document i proj br ts dt fp fname latest now])
                   (documents_fts db), i).

(** [INSERT INTO documents_fts (rowid, content) ...]; [None] is
    [sqlite3.IntegrityError], raised when the [rowid] is taken. *)
Definition insert_fts (db : database) (rowid : Z) (content : string) : option database :=
  if bool_decide (rowid ∈ fst <$> documents_fts db) then None
  else Some (Database (documents db) (documents_fts db ++ [(rowid, content)])).

(** The scoped delete of [do_ingest]: the content records of the project's
    documents, one [DELETE] per document, then the documents. *)
Definition delete_project (proj : string) (db : database) : database :=
  let existing := doc_id <$> filter (fun d => project d = proj) (documents db) in
  let fts :=
    foldl (fun t i => filter (fun r => r.1 ≠ i) t) (documents_fts db) existing in
  Database (filter (fun d => project d ≠ proj) (documents db)) fts.

(** ** The indexer *)

(** An optional command-line string as an [if args.x:] test sees it: absent
    and empty are both false. *)
Definition given (o : option string) : option string :=
  match o with
  | Some s => if decide (s = "") then None else Some s
  | None => None
  end.

(** What a command leaves behind: its return value and what it printed. *)
Record outcome : Type := Outcome {
  status : Z;
  out : list string;       (* the lines printed on standard output *)
  err : list string;       (* the lines printed on standard error *)
  opened : list string }.  (* the files handed to [_open_file] *)

(** The loop variables of [do_ingest]. *)
Record ingest_state : Type := IngestState {
  st_db : database;
  st_count : Z;
  st_errors : Z }.

(** One iteration of the loop over [scan_root.rglob("*.md")]. *)
Definition ingest_file (fs : filesystem) (archive_base : Path)
    (latest_dirs : gset string) (now : string)
    (st : ingest_state) (md_file : Path) : py ingest_state :=
  if bool_decide (path_name md_file ∈ SKIP_FILES) then Ok st
  else if existsb (fun skip => bool_decide (skip ∈ md_file)) SKIP_DIRS then Ok st
  else
    try! parsed := parse_archive_path md_file archive_base in
    match parsed with
    | None => Ok st
    | Some f =>
        let ts_dir :=
          joinpath (joinpath (joinpath archive_base (f_project f)) (f_branch f))
                   (f_timestamp f) in
        let latest := if bool_decide (path_str ts_dir ∈ latest_dirs) then 1 else 0 in
        match fs_read_text fs md_file with
        | None => Ok (IngestState (st_db st) (st_count st) (st_errors st + 1))
        | Some content =>
            match insert_document (st_db st) (f_project f) (f_branch f) (f_timestamp f)
                    (f_dir_type f) (path_str md_file) (path_name md_file) latest now with
            | None => Ok (IngestState (st_db st) (st_count st) (st_errors st + 1))
            | Some (db1, i) =>
                match insert_fts db1 i content with
                | None => Ok (IngestState db1 (st_count st) (st_errors st + 1))
                | Some db2 => Ok (IngestState db2 (st_count st + 1) (st_errors st))
                end
            end
        end
    end.

(** The loop over the files of the walk; an exception that nothing catches
    ends it. *)
Fixpoint ingest_loop (fs : filesystem) (archive_base : Path)
    (latest_dirs : gset string) (now : string)
    (st : ingest_state) (files : list Path) : py ingest_state :=
  match files with
  | [] => Ok st
  | md_file :: rest =>
      try! st' := ingest_file fs archive_base latest_dirs now st md_file in
      ingest_loop fs archive_base latest_dirs now st' rest
  end.

Definition DB_PATH (ARCHIVE_BASE : Path) : Path := joinpath ARCHIVE_BASE "archives.db".

(** The directory that [do_ingest] walks. *)
Definition scan_root_of (ARCHIVE_BASE : Path) (proj : option string) : Path :=
  match given proj with
  | Some p => joinpath ARCHIVE_BASE p
  | None => ARCHIVE_BASE
  end.

(** The tables once the rows to replace are gone: committed before the walk. *)
Definition cleared (proj : option string) (file : option database) : database :=
  match given proj with
  | Some p => delete_project p (ensure_schema (get_db file))
  | None => init_schema (get_db file)
  end.

(** [do_ingest(args)] with [args.project = proj], run at time [now] on the
    database file [file] ([None] when there is none). The result is the
    return value with the output, or the exception that ended the run, and
    the committed content of the database file afterwards. *)
Definition do_ingest (ARCHIVE_BASE : Path) (fs : filesystem) (now : string)
    (proj : option string) (file : option database)
    : py outcome * option database :=
  let archive_base := ARCHIVE_BASE in
  if negb (fs_exists fs archive_base) then
    (Ok (Outcome 1 [] ["archive dir not found: " +:+ path_str archive_base] []), file)
  else
    let scan_root := scan_root_of ARCHIVE_BASE proj in
    if bool_decide (is_Some (given proj)) && negb (fs_exists fs scan_root) then
      (Ok (Outcome 1 [] ["project not found: " +:+ default "" proj] []), file)
    else
      let db := cleared proj file in
      let latest_dirs := resolve_latest_timestamps fs archive_base in
      match ingest_loop fs archive_base latest_dirs now (IngestState db 0 0)
              (rglob fs scan_root glob_md) with
      | Raise e => (Raise e, Some db)
      | Ok st =>
          (Ok (Outcome 0
                 (("indexed " +:+ pretty (st_count st) +:+ " documents into "
                     +:+ path_str (DB_PATH ARCHIVE_BASE))
                  :: (if bool_decide (st_errors st ≠ 0)
                      then ["skipped " +:+ pretty (st_errors st)
                              +:+ " files (read errors or duplicates)"]
                      else []))
                 [] []),
           Some (st_db st))
      end.

(** ** The query engine *)

(** The FTS5 extension, as far as the search statement uses it.
    [fts5_syntax_error q] is the message of the error that [MATCH q] raises
    when [q] is not a well-formed query. For a well-formed [q],
    [fts5_rank q table r] is the [rank] column of the row [r] of [table]
    when [r] matches [q] (smaller is better), and [None] when it does not. *)
Record fts5 : Type := {
  fts5_syntax_error : string -> option string;
  fts5_rank : string -> list (Z * string) -> Z * string -> option Qc }.

(** A row of the search statement's result. *)
Record row : Type := Row {
  r_filepath : string;
  r_project : string;
  r_branch : string;
  r_timestamp : string;
  r_dir_type : option string;
  r_filename : string;
  r_rank : Qc }.

(** The arguments of the [search] subcommand. *)
Record search_args : Type := SearchArgs {
  arg_pattern : string;
  arg_project : option string;
  arg_type : option string;
  arg_branch : option string;
  arg_latest : bool;
  arg_n : Z;
  arg_full : bool;
  arg_file_name : bool;
  arg_no_fzf : bool }.

(** The conditions that [do_search] appends to [where], with their
    parameters. *)
Inductive cond : Type :=
  | ProjectEq (p : string)    (* d.project = ? *)
  | DirTypeEq (t : string)    (* d.dir_type = ? *)
  | BranchEq (b : string)     (* d.branch = ? *)
  | IsLatest.                 (* d.is_latest = 1 *)

Definition where_of (args : search_args) : list cond :=
  (match given (arg_project args) with Some p => [ProjectEq p] | None => [] end)
  ++ (match given (arg_type args) with Some t => [DirTypeEq t] | None => [] end)
  ++ (match given (arg_branch args) with Some b => [BranchEq b] | None => [] end)
  ++ (if arg_latest args then [IsLatest] else []).

Definition holds (d : document) (c : cond) : bool :=
  match c with
  | ProjectEq p => bool_decide (project d = p)
  | DirTypeEq t => bool_decide (dir_type d = Some t)
  | BranchEq b => bool_decide (branch d = b)
  | IsLatest => bool_decide (is_latest d = 1)
  end.

(** [FROM documents_fts f JOIN documents d ON d.id = f.rowid
     WHERE documents_fts MATCH ? AND ...]: the conditions are joined by
    [AND]. *)
Definition select_rows (E : fts5) (db : database) (q : string) (wh : list cond)
    : list row :=
  f ← documents_fts db;
  d ← documents db;
  if bool_decide (doc_id d = f.1) then
    match fts5_rank E q (documents_fts db) f with
    | Some rk =>
        if forallb (holds d) wh
        then [Row (filepath d) (project d) (branch d) (timestamp d) (dir_type d)
                  (filename d) rk]
        else []
    | None => []
    end
  else [].

(** [ORDER BY rank]: ascending. *)
Definition rank_le (a b : row) : Prop := (r_rank a <= r_rank b)%Qc.

Global Instance rank_le_dec : RelDecision rank_le.
Proof. intros a b. unfold rank_le. apply _. Defined.

Definition order_by_rank (rows : list row) : list row := merge_sort rank_le rows.

(** [LIMIT n]: a negative [n] is no limit. *)
Definition limit {A} (n : Z) (l : list A) : list A :=
  if bool_decide (n < 0) then l else take (Z.to_nat n) l.

(** What [db.execute(sql, params).fetchall()] gives [do_search]: the rows,
    or the [sqlite3.OperationalError] that the handler catches. *)
Inductive sql_result : Type :=
  | Fetched (rows : list row)
  | OperationalError (msg : string).

(** The values that SQLite stores as an [INTEGER]. *)
Definition sqlite_int (n : Z) : bool :=
  bool_decide (- 2 ^ 63 <= n) && bool_decide (n < 2 ^ 63).

(** Running the statement: the parameters are bound first, and an integer
    that SQLite cannot hold makes the binding raise [OverflowError]; then
    the query text is parsed by FTS5. *)
Definition execute_search (E : fts5) (db : database) (q : string)
    (wh : list cond) (n : Z) : py sql_result :=
  if negb (sqlite_int n) then Raise OverflowError
  else
    match fts5_syntax_error E q with
    | Some msg => Ok (OperationalError msg)
    | None => Ok (Fetched (limit n (order_by_rank (select_rows E db q wh))))
    end.

(** The rows that a search of an existing index returns. *)
Definition search_rows (E : fts5) (db : database) (args : search_args) : py sql_result :=
  execute_search E db (arg_pattern args) (where_of args) (arg_n args).

(** ** The result presenter *)

Definition DQUOTE : ascii := "034"%char.
Definition TAB : ascii := "009"%char.

(** The first line, counted from [i], that contains one of [terms], the
    case of letters ignored. *)
Fixpoint first_match (terms : list string) (i : Z) (lines : list string) : option Z :=
  match lines with
  | [] => None
  | line :: rest =>
      let lower_line := lower line in
      if existsb (fun t => contains (lower t) lower_line) terms then Some i
      else first_match terms (i + 1) rest
  end.

Definition _find_match_line (fs : filesystem) (fp pattern : string) : Z :=
  let terms := split (remove_char DQUOTE pattern) in
  match fs_read_text fs (parse_parts fp) with
  | Some text =>
      match first_match terms 1 (splitlines text) with
      | Some i => i
      | None => 1
      end
  | None => 1
  end.

(** [f"{x:.2f}"] for [x = abs(q)]: two decimals, the exact value rounded to
    the nearest, a tie to the even digit. *)
Definition format_2f (q : Qc) : string :=
  let n := Z.abs (Qnum (this q)) * 100 in
  let d := Z.pos (Qden (this q)) in
  let k := n / d in
  let r := n mod d in
  let k' := if bool_decide (d < 2 * r) then k + 1
            else if bool_decide (2 * r = d) && negb (Z.even k) then k + 1
            else k in
  let cents := k' mod 100 in
  pretty (k' / 100) +:+ "." +:+ (if bool_decide (cents < 10) then "0" else "")
    +:+ pretty cents.

(** A result as both presenters show it. *)
Record shown : Type := Shown {
  sh_filepath : string;
  sh_lineno : Z;
  sh_score : string;
  sh_rel : string }.

Definition show_row (fs : filesystem) (pattern : string) (r : row) : shown :=
  let lineno := _find_match_line fs (r_filepath r) pattern in
  let rel := r_project r +:+ "/" +:+ r_branch r +:+ "/" +:+ r_timestamp r +:+ "/"
             +:+ default "" (r_dir_type r) +:+ "/" +:+ r_filename r +:+ ":"
             +:+ pretty lineno in
  Shown (r_filepath r) lineno ("[" +:+ format_2f (r_rank r) +:+ "]") rel.

(** [get_snippet]: the lines around the first one that contains the raw
    query text, the case of letters ignored. *)
Fixpoint snippet_line (pattern : string) (i : nat) (lines : list string) : option nat :=
  match lines with
  | [] => None
  | line :: rest =>
      if contains (lower pattern) (lower line) then Some i
      else snippet_line pattern (S i) rest
  end.

Definition get_snippet (fs : filesystem) (fp pattern : string) : option string :=
  match fs_read_text fs (parse_parts fp) with
  | None => None
  | Some text =>
      match snippet_line pattern 1 (splitlines text) with
      | Some i =>
          let start := (i - 2)%nat in
          let stop := (i + 2)%nat in
          Some (join (String LF EmptyString)
                     (drop start (take stop (splitlines text))))
      | None => None
      end
  end.

(** The interactive side: whether standard output is a terminal, whether
    [shutil.which("fzf")] finds the picker, and the picker itself, run for
    a pattern on its input: [None] when starting it raises
    [FileNotFoundError], else its return code and its output. *)
Record terminal : Type := {
  isatty : bool;
  which_fzf : bool;
  run_fzf : string -> string -> option (Z * string) }.

Definition fzf_line (s : shown) : string :=
  sh_filepath s +:+ String TAB EmptyString +:+ pretty (sh_lineno s)
    +:+ String TAB EmptyString +:+ sh_score s +:+ " " +:+ sh_rel s.

Definition _fzf_pick (fs : filesystem) (tm : terminal) (rows : list row)
    (pattern : string) (open_file : bool) : py outcome :=
  let lines := (fun r => fzf_line (show_row fs pattern r)) <$> rows in
  let fzf_input := join (String LF EmptyString) lines in
  match run_fzf tm pattern fzf_input with
  | None => Ok (Outcome 1 [] ["fzf not found"] [])
  | Some (returncode, stdout) =>
      if bool_decide (returncode ≠ 0) || bool_decide (strip stdout = EmptyString)
      then Ok (Outcome 0 [] [] [])
      else
        match split_on TAB (strip stdout) with
        | fp :: _ :: _ =>
            if open_file then Ok (Outcome 0 [] [] [fp])
            else Ok (Outcome 0 [fp] [] [])
        | _ => Raise IndexError
        end
  end.

(** The lines that the plain presenter prints for one row. *)
Definition plain_lines (fs : filesystem) (args : search_args) (r : row) : list string :=
  let s := show_row fs (arg_pattern args) r in
  (sh_score s +:+ " " +:+ sh_rel s)
  :: (if arg_full args then
        (match get_snippet fs (r_filepath r) (arg_pattern args) with
         | Some snippet =>
             (fun line => "        " +:+ strip line) <$> take 4 (splitlines snippet)
         | None => []
         end) ++ [EmptyString]
      else []).

(** [do_search(args)] on the database file [file]. *)
Definition do_search (ARCHIVE_BASE : Path) (fs : filesystem) (E : fts5)
    (tm : terminal) (args : search_args) (file : option database) : py outcome :=
  match file with
  | None =>
      Ok (Outcome 1 []
            ["no database found at " +:+ path_str (DB_PATH ARCHIVE_BASE)
               +:+ " — run 'ingest' first"] [])
  | Some _ =>
      let db := get_db file in
      try! res := search_rows E db args in
      match res with
      | OperationalError e =>
          Ok (Outcome 1 []
                ["search error: " +:+ e;
                 "tip: use simple terms or quote phrases with double quotes"] [])
      | Fetched rows =>
          match rows with
          | [] => Ok (Outcome 0 ["no results for: " +:+ arg_pattern args] [] [])
          | _ =>
              let use_fzf :=
                (isatty tm || arg_file_name args) && which_fzf tm
                && negb (arg_no_fzf args) in
              if use_fzf then
                _fzf_pick fs tm rows (arg_pattern args) (negb (arg_file_name args))
              else
                Ok (Outcome 0 (rows ≫= plain_lines fs args) [] [])
          end
      end
  end.




(** ** The round trip of the classifier *)

(** The relative paths of the archive convention,
    [<project>/<branch>/<timestamp>/[<category>/]<filename>.md]. *)
Inductive convention : Path -> Prop :=
  | convention_root (p b ts fname : string) :
      timestamp_fullmatch ts = true ->
      glob_md fname = true ->
      convention [p; b; ts; fname]
  | convention_category (p b ts c fname : string) :
      timestamp_fullmatch ts = true ->
      c ∈ VALID_TYPES ->
      glob_md fname = true ->
      convention [p; b; ts; c; fname].

(** The relative path that the facets and the file name stand for: the
    category is a segment of its own unless it is the ["root"] marker. *)
Definition rebuild_relative (f : facets) (fname : string) : Path :=
  match f_dir_type f with
  | Some c =>
      if decide (c = "root") then [f_project f; f_branch f; f_timestamp f; fname]
      else [f_project f; f_branch f; f_timestamp f; c; fname]
  | None => [f_project f; f_branch f; f_timestamp f; fname]
  end.

(** ** The statements of the claims *)

Definition row_of (d : document) (rk : Qc) : row :=
  Row (filepath d) (project d) (branch d) (timestamp d) (dir_type d) (filename d) rk.

(** A document passes the filters that the command line gives a value:
    a filter is given when its option has a value that is not empty. *)
Definition passes_given (args : search_args) (d : document) : Prop :=
  (∀ p, given (arg_project args) = Some p -> project d = p) ∧
  (∀ t, given (arg_type args) = Some t -> dir_type d = Some t) ∧
  (∀ b, given (arg_branch args) = Some b -> branch d = b) ∧
  (arg_latest args = true -> is_latest d = 1).

(** A document passes every filter that is on the command line at all. *)
Definition passes_supplied (args : search_args) (d : document) : Prop :=
  (∀ p, arg_project args = Some p -> project d = p) ∧
  (∀ t, arg_type args = Some t -> dir_type d = Some t) ∧
  (∀ b, arg_branch args = Some b -> branch d = b) ∧
  (arg_latest args = true -> is_latest d = 1).

(** The claim C1 as the specification words it: every returned row is that
    of a document passing every filter on the command line, and there are
    no more rows than the limit. *)
Definition search_respects_filters_and_limit
    (E : fts5) (db : database) (args : search_args) : Prop :=
  ∀ rows, search_rows E db args = Ok (Fetched rows) ->
    (∀ r, r ∈ rows ->
       ∃ d, d ∈ documents db ∧ r = row_of d (r_rank r) ∧ passes_supplied args d) ∧
    Z.of_nat (length rows) <= arg_n args.



(** The directory [archive_base / project / branch / timestamp] of a
    classified file. *)
Definition ts_dir_of (archive_base : Path) (f : facets) : Path :=
  joinpath (joinpath (joinpath archive_base (f_project f)) (f_branch f)) (f_timestamp f).

(** [d] is the row that the indexer writes for the file [md_file]. *)
Definition indexed_from (archive_base : Path) (latest_dirs : gset string)
    (now : string) (md_file : Path) (d : document) : Prop :=
  ∃ f, parse_archive_path md_file archive_base = Ok (Some f) ∧
       project d = f_project f ∧ branch d = f_branch f ∧
       timestamp d = f_timestamp f ∧ dir_type d = f_dir_type f ∧
       filepath d = path_str md_file ∧ filename d = path_name md_file ∧
       is_latest d =
         (if bool_decide (path_str (ts_dir_of archive_base f) ∈ latest_dirs)
          then 1 else 0) ∧
       indexed_at d = now.

(** The files of the walk that the loop neither skips nor rejects. *)
Definition candidate (archive_base : Path) (md_file : Path) : bool :=
  negb (bool_decide (path_name md_file ∈ SKIP_FILES))
  && negb (existsb (fun skip => bool_decide (skip ∈ md_file)) SKIP_DIRS)
  && match parse_archive_path md_file archive_base with
     | Ok (Some _) => true
     | _ => false
     end.





(** ** Statistics *)

(** One more row for the group of [k]: [COUNT( * )] under [GROUP BY]. *)
Fixpoint bump {K} `{EqDecision K} (k : K) (groups : list (K * Z)) : list (K * Z) :=
  match groups with
  | [] => [(k, 1)]
  | (k', c) :: rest =>
      if decide (k' = k) then (k', c + 1) :: rest else (k', c) :: bump k rest
  end.

(** [SELECT key, COUNT( * ) as cnt ... GROUP BY key]: a group for each key. *)
Definition group_count {K} `{EqDecision K} (keys : list K) : list (K * Z) :=
  foldl (fun groups k => bump k groups) [] keys.

(** The count that a list of groups holds for a key. *)
Fixpoint cnt_of {K} `{EqDecision K} (k : K) (groups : list (K * Z)) : Z :=
  match groups with
  | [] => 0
  | (k', c) :: rest => (if decide (k' = k) then c else 0) + cnt_of k rest
  end.

(** [ORDER BY cnt DESC]; the order of groups with equal counts is that of
    the sort and is not part of what the statement promises. *)
Definition cnt_ge {K} (a b : K * Z) : Prop := b.2 <= a.2.

Global Instance cnt_ge_dec {K} : RelDecision (@cnt_ge K).
Proof. intros a b. unfold cnt_ge. apply _. Defined.

Definition order_by_cnt_desc {K} (groups : list (K * Z)) : list (K * Z) :=
  merge_sort cnt_ge groups.

(** The four queries of [do_stats]. *)
Record stats : Type := Stats {
  s_total : Z;
  s_by_project : list (string * Z);
  s_by_type : list (option string * Z);
  s_latest : Z }.

Definition query_stats (db : database) : stats :=
  Stats (Z.of_nat (length (documents db)))
        (order_by_cnt_desc (group_count (project <$> documents db)))
        (order_by_cnt_desc (group_count (dir_type <$> documents db)))
        (Z.of_nat (length (filter (fun d => is_latest d = 1) (documents db)))).

(** [row[0] or 'root'] *)
Definition type_label (t : option string) : string :=
  match t with
  | Some s => if decide (s = "") then "root" else s
  | None => "root"
  end.

(** [do_stats(args)] on the database file [file]. *)
Definition do_stats (ARCHIVE_BASE : Path) (file : option database) : outcome :=
  match file with
  | None =>
      Outcome 1 []
        ["no database found at " +:+ path_str (DB_PATH ARCHIVE_BASE)
           +:+ " — run 'ingest' first"] []
  | Some _ =>
      let st := query_stats (get_db file) in
      Outcome 0
        (["total documents: " +:+ pretty (s_total st); EmptyString; "by project:"]
         ++ ((fun g => "  " +:+ g.1 +:+ ": " +:+ pretty g.2) <$> s_by_project st)
         ++ [EmptyString; "by type:"]
         ++ ((fun g => "  " +:+ type_label g.1 +:+ ": " +:+ pretty g.2) <$> s_by_type st)
         ++ [EmptyString; "latest only: " +:+ pretty (s_latest st)])
        [] []
  end.

(** ** Invariants and well-formed inputs *)

(** What the schema and the indexer keep true of the two tables: ids and
    file paths are unique, each content record is that of a document, and
    each document has its content record. *)
Record wf_db (db : database) : Prop := {
  wf_ids : NoDup (doc_id <$> documents db);
  wf_filepaths : NoDup (filepath <$> documents db);
  wf_rowids : NoDup (fst <$> documents_fts db);
  wf_fts_doc : ∀ r, r ∈ documents_fts db -> r.1 ∈ doc_id <$> documents db;
  wf_doc_fts : ∀ d, d ∈ documents db -> doc_id d ∈ fst <$> documents_fts db }.

(** A name of one directory entry: not empty, not ["."], without a slash. *)
Definition plain_segment (s : string) : Prop :=
  s ≠ "" ∧ s ≠ "." ∧ "/"%char ∉ chars s.

(** The parts of a path as [pathlib] builds them: plain segments, after a
    root or without one. *)
Definition well_formed_path (p : Path) : Prop :=
  match p with
  | [] => True
  | r :: tail => (is_root r = true ∨ plain_segment r) ∧ Forall plain_segment tail
  end.

(** The test of [do_search] for the interactive presenter. *)
Definition use_fzf (tm : terminal) (args : search_args) : bool :=
  (isatty tm || arg_file_name args) && which_fzf tm && negb (arg_no_fzf args).

(** The same search with another [-n]. *)
Definition with_limit (args : search_args) (n : Z) : search_args :=
  SearchArgs (arg_pattern args) (arg_project args) (arg_type args) (arg_branch args)
             (arg_latest args) n (arg_full args) (arg_file_name args) (arg_no_fzf args).

(** What [_fzf_pick] writes to the picker. *)
Definition fzf_input (fs : filesystem) (pattern : string) (rows : list row) : string :=
  join (String LF EmptyString) ((fun r => fzf_line (show_row fs pattern r)) <$> rows).

(** The test of [_find_match_line] on a line. *)
Definition line_matches (pattern line : string) : bool :=
  existsb (fun t => contains (lower t) (lower line)) (split (remove_char DQUOTE pattern)).

(** The test of [get_snippet] on a line. *)
Definition line_has_pattern (pattern line : string) : bool :=
  contains (lower pattern) (lower line).

(** ** A small archive to run the definitions on *)

Module Sample.

Definition base : Path := ["/"; "arch"].
Definition ts1 : string := "20240101_120000".
Definition ts2 : string := "20240202_101010".

Definition x_md : Path := base ++ ["proj"; "main"; ts1; "plans"; "x.md"].
Definition y_md : Path := base ++ ["proj"; "main"; ts1; "research"; "y.md"].
Definition old_md : Path := base ++ ["proj"; "main"; ts2; "old.md"].
Definition notes_md : Path := base ++ ["other"; "dev"; ts2; "notes.md"].
Definition locked_md : Path := base ++ ["other"; "dev"; ts2; "locked.md"].
Definition latest_link : Path := base ++ ["proj"; "main"; "latest"].
Definition stale_link : Path := base ++ ["other"; "dev"; "latest"].

(** Every entry below the root, directories left out of the listing. *)
Definition entries : list Path :=
  [x_md; y_md; old_md; latest_link; notes_md; locked_md; stale_link].

Definition directories : list Path :=
  [base; base ++ ["proj"]; base ++ ["proj"; "main"]; base ++ ["proj"; "main"; ts1];
   base ++ ["proj"; "main"; ts2]; base ++ ["other"]; base ++ ["other"; "dev"];
   base ++ ["other"; "dev"; ts2]; ["/"; "tmp"]].

Definition contents (p : Path) : option string :=
  if decide (p = x_md) then Some "jwt rotation bug"
  else if decide (p = y_md) then Some "JWT rotation design"
  else if decide (p = old_md) then Some ("first line" +:+ String LF "the jwt jwt note")
  else if decide (p = notes_md) then Some "unrelated notes"
  else None.

(** [proj/main/latest] points at the first timestamp directory;
    [other/dev/latest] is a broken link; [other/dev/.../locked.md] cannot
    be read; [/tmp] holds one markdown file outside the archive. *)
Definition fs : filesystem := {|
  fs_exists p := bool_decide (p ∈ directories ++ entries);
  fs_walk root :=
    if decide (root = ["/"; "tmp"]) then [["loose.md"]]
    else omap (fun p => match relative_to p root with
                        | Ok (x :: rel) => Some (x :: rel)
                        | _ => None
                        end) entries;
  fs_is_symlink p := bool_decide (p = latest_link ∨ p = stale_link);
  fs_resolve p :=
    if decide (p = latest_link) then base ++ ["proj"; "main"; ts1]
    else if decide (p = stale_link) then base ++ ["other"; "dev"; "gone"]
    else p;
  fs_is_dir p := bool_decide (p ∈ directories);
  fs_read_text := contents |}.

Definition count_char (c : ascii) (s : string) : nat :=
  length (filter (fun x => x = c) (chars s)).

(** A miniature full-text engine with the interface of FTS5: a query with
    an unterminated quoted phrase, or with no term at all, is malformed;
    a row matches when each term of the query is one of its words, the
    case of letters ignored; the more words of the row are query terms,
    the smaller (better) its rank. *)
Definition engine : fts5 := {|
  fts5_syntax_error q :=
    if Nat.odd (count_char DQUOTE q) then Some "unterminated string"
    else match split (remove_char DQUOTE q) with
         | [] => Some "fts5: syntax error"
         | _ => None
         end;
  fts5_rank q table r :=
    let terms := split (remove_char DQUOTE (lower q)) in
    let words := split (lower r.2) in
    if forallb (fun t => bool_decide (t ∈ words)) terms
    then Some (Q2Qc (inject_Z
                 (- Z.of_nat (length (filter (fun w => w ∈ terms) words)))))
    else None |}.

(** No terminal, no picker. *)
Definition piped : terminal := {|
  isatty := false;
  which_fzf := false;
  run_fzf _ _ := None |}.

Definition now : string := "2024-03-01T09:00:00".

(** The index after a full rebuild of the sample archive. *)
Definition indexed : option database := (do_ingest base fs now None None).2.

Definition args (pattern : string) : search_args :=
  SearchArgs pattern None None None false 20 false false true.

End Sample.


(** A terminal with a picker that selects the first line it is given. *)
Definition first_line_picker : terminal := {|
  isatty := true;
  which_fzf := true;
  run_fzf _ input :=
    Some (0, default EmptyString (head (split_on LF input)) +:+ String LF EmptyString) |}.

(** * Properties *)

(** ** Paths *)

Lemma relative_to_app (base rel : Path) : relative_to (base ++ rel) base = Ok rel.
Proof.
  induction base as [|b base IH]; simpl; [done|].
  by rewrite decide_True.
Qed.

Lemma relative_to_inv (p base rel : Path) :
  relative_to p base = Ok rel -> p = base ++ rel.
Proof.
  revert p. induction base as [|b base IH]; intros p H; simpl in *.
  - by inversion H.
  - destruct p as [|x p]; [done|].
    destruct (decide (x = b)) as [->|]; [|done].
    f_equal. by apply IH.
Qed.

(** ** The path classifier *)

(** What the classifier returns, by the shape of the relative path. *)
Lemma parse_archive_path_parts (fp archive_base parts : Path) :
  relative_to fp archive_base = Ok parts ->
  parse_archive_path fp archive_base =
    Ok (match parts with
        | p :: b :: ts :: p3 :: _ =>
            if TIMESTAMP_RE_match ts
            then Some (Facets p b ts
                         (Some (if bool_decide (p3 ∈ VALID_TYPES) then p3 else "root")))
            else None
        | _ => None
        end).
Proof.
  intros H. unfold parse_archive_path. rewrite H. simpl.
  destruct parts as [|p [|b [|ts [|p3 rest]]]];
    case_bool_decide; simpl in *; try lia; try done.
  destruct (TIMESTAMP_RE_match ts); simpl; [|done].
  by destruct (bool_decide (p3 ∈ VALID_TYPES)).
Qed.

Lemma parse_archive_path_outside (fp archive_base : Path) :
  relative_to fp archive_base = Raise ValueError ->
  parse_archive_path fp archive_base = Raise ValueError.
Proof. intros H. unfold parse_archive_path. by rewrite H. Qed.

(** The classifier accepts a path below the root exactly when it has four
    segments or more and [TIMESTAMP_RE] matches the third. *)
Lemma parse_archive_path_accepts (archive_base rel : Path) (f : facets) :
  parse_archive_path (archive_base ++ rel) archive_base = Ok (Some f) <->
  ∃ p b ts p3 rest,
    rel = p :: b :: ts :: p3 :: rest ∧ TIMESTAMP_RE_match ts = true ∧
    f = Facets p b ts (Some (if bool_decide (p3 ∈ VALID_TYPES) then p3 else "root")).
Proof.
  rewrite (parse_archive_path_parts _ _ rel) by apply relative_to_app.
  split.
  - destruct rel as [|p [|b [|ts [|p3 rest]]]]; try done.
    destruct (TIMESTAMP_RE_match ts) eqn:Hts; [|done].
    intros [= <-]. by exists p, b, ts, p3, rest.
  - intros (p & b & ts & p3 & rest & -> & Hts & ->). by rewrite Hts.
Qed.

Lemma match_digits_fullmatch_LF (s : string) :
  timestamp_fullmatch s = true -> TIMESTAMP_RE_match s = true.
Proof.
  unfold timestamp_fullmatch, TIMESTAMP_RE_match.
  destruct (match_digits 8 (chars s)) as [[|c l]|]; try done.
  destruct (decide (c = "_"%char)) as [->|Hc].
  - destruct (match_digits 6 l) as [[|c' [|c'' l']]|]; done.
  - intros H. exfalso. revert H.
    destruct c as [[] [] [] [] [] [] [] []]; try done.
Qed.

Lemma of_chars_chars (s : string) : of_chars (chars s) = s.
Proof. induction s as [|c s IH]; simpl; by f_equal. Qed.

Lemma chars_app (s t : string) : chars (s +:+ t) = chars s ++ chars t.
Proof. induction s as [|c s IH]; simpl; by f_equal. Qed.

Lemma match_digits_app (n : nat) (l rest tail : list ascii) :
  match_digits n l = Some rest -> match_digits n (l ++ tail) = Some (rest ++ tail).
Proof.
  revert l. induction n as [|n IH]; intros l; simpl.
  - by intros [= ->].
  - destruct l as [|c l]; [done|]. simpl. destruct (is_digit c); [apply IH|done].
Qed.

Lemma match_digits_strip (n : nat) (l rest tail : list ascii) :
  match_digits n l = Some (rest ++ tail) ->
  ∃ l0, l = l0 ++ tail ∧ match_digits n l0 = Some rest.
Proof.
  revert l. induction n as [|n IH]; intros l; simpl.
  - intros [= ->]. by exists rest.
  - destruct l as [|c l]; [done|]. destruct (is_digit c) eqn:Hc; [|done].
    intros (l0 & -> & H)%IH. exists (c :: l0). simpl. by rewrite Hc.
Qed.

Lemma chars_of_chars (l : list ascii) : chars (of_chars l) = l.
Proof. induction l as [|c l IH]; simpl; by f_equal. Qed.

Lemma of_chars_app (l1 l2 : list ascii) :
  of_chars (l1 ++ l2) = of_chars l1 +:+ of_chars l2.
Proof. induction l1 as [|c l1 IH]; simpl; [done|by rewrite IH]. Qed.

(** What [TIMESTAMP_RE] matches: the strings of the pattern, and the same
    strings followed by one line feed. *)
Lemma TIMESTAMP_RE_match_spec (s : string) :
  TIMESTAMP_RE_match s = true <->
  timestamp_fullmatch s = true ∨
  ∃ t, s = t +:+ String LF EmptyString ∧ timestamp_fullmatch t = true.
Proof.
  split.
  - unfold TIMESTAMP_RE_match, timestamp_fullmatch.
    destruct (match_digits 8 (chars s)) as [[|c l]|] eqn:H8; try done.
    destruct (decide (c = "_"%char)) as [->|Hc].
    + destruct (match_digits 6 l) as [[|c' [|c'' l']]|] eqn:H6; try done.
      * by left.
      * intros ->%bool_decide_eq_true. right.
        apply (match_digits_strip 6 l [] [LF]) in H6 as (l6 & -> & H6).
        apply (match_digits_strip 8 _ ("_"%char :: l6) [LF]) in H8 as (c8 & Hs & H8).
        exists (of_chars c8). split.
        -- by rewrite <-(of_chars_chars s), Hs, of_chars_app.
        -- by rewrite chars_of_chars, H8, H6.
    + intros H. exfalso. revert H. destruct c as [[] [] [] [] [] [] [] []]; try done.
  - intros [H|(t & -> & H)]; [by apply match_digits_fullmatch_LF|].
    revert H. unfold TIMESTAMP_RE_match, timestamp_fullmatch. rewrite chars_app.
    destruct (match_digits 8 (chars t)) as [[|c l]|] eqn:H8; try done.
    rewrite (match_digits_app _ _ _ _ H8). cbn [app].
    destruct (decide (c = "_"%char)) as [->|Hc].
    + destruct (match_digits 6 l) as [[|c' l']|] eqn:H6; try done.
      by rewrite (match_digits_app _ _ _ _ H6).
    + intros H. exfalso. revert H. destruct c as [[] [] [] [] [] [] [] []]; try done.
Qed.

(** C3. A directory whose name is a well-formed timestamp followed by a line
    feed does not fully match the timestamp pattern, and the classifier
    accepts the files below it all the same: the [$] of [TIMESTAMP_RE] also
    holds before a final line feed. *)
Theorem parse_archive_path_trailing_newline :
  let ts := "20240101_120000" +:+ String LF EmptyString in
  timestamp_fullmatch ts = false ∧
  parse_archive_path ["/"; "arch"; "proj"; "main"; ts; "plans"; "x.md"] ["/"; "arch"]
    = Ok (Some (Facets "proj" "main" ts (Some "plans"))).
Proof. split; reflexivity. Qed.

(** C4. For a path that the classifier accepts, the category is the fourth
    segment of the relative path when that segment is one of plans, context,
    research, reviews, filebox, history, prompts, features, and the marker
    "root" otherwise. *)
Theorem parse_archive_path_category (fp archive_base : Path) (f : facets) :
  parse_archive_path fp archive_base = Ok (Some f) ->
  ∃ p b ts p3 rest,
    relative_to fp archive_base = Ok (p :: b :: ts :: p3 :: rest) ∧
    (p3 ∈ ["plans"; "context"; "research"; "reviews"; "filebox"; "history";
           "prompts"; "features"] -> f_dir_type f = Some p3) ∧
    (p3 ∉ ["plans"; "context"; "research"; "reviews"; "filebox"; "history";
           "prompts"; "features"] -> f_dir_type f = Some "root").
Proof.
  intros H.
  destruct (relative_to fp archive_base) as [parts|e] eqn:Hrel.
  - rewrite (parse_archive_path_parts _ _ parts Hrel) in H.
    destruct parts as [|p [|b [|ts [|p3 rest]]]]; try done.
    destruct (TIMESTAMP_RE_match ts); [|done].
    injection H as <-. exists p, b, ts, p3, rest. simpl.
    change ["plans"; "context"; "research"; "reviews"; "filebox"; "history";
            "prompts"; "features"] with VALID_TYPES.
    split; [done|]. split; intros Hin.
    + by rewrite bool_decide_eq_true_2.
    + by rewrite bool_decide_eq_false_2.
  - unfold parse_archive_path in H. by rewrite Hrel in H.
Qed.

Lemma parse_archive_path_category_witness :
  let f := Facets "proj" "main" Sample.ts1 (Some "plans") in
  parse_archive_path Sample.x_md Sample.base = Ok (Some f) ∧
  ∃ p b ts p3 rest,
    relative_to Sample.x_md Sample.base = Ok (p :: b :: ts :: p3 :: rest) ∧
    (p3 ∈ ["plans"; "context"; "research"; "reviews"; "filebox"; "history";
           "prompts"; "features"] -> f_dir_type f = Some p3) ∧
    (p3 ∉ ["plans"; "context"; "research"; "reviews"; "filebox"; "history";
           "prompts"; "features"] -> f_dir_type f = Some "root").
Proof.
  assert (H : parse_archive_path Sample.x_md Sample.base
              = Ok (Some (Facets "proj" "main" Sample.ts1 (Some "plans"))))
    by reflexivity.
  split; [exact H|].
  exact (parse_archive_path_category Sample.x_md Sample.base _ H).
Defined.

Lemma glob_md_not_valid_type (fname : string) :
  glob_md fname = true -> fname ∉ VALID_TYPES.
Proof.
  intros Hmd Hin. unfold VALID_TYPES in Hin.
  repeat (apply elem_of_cons in Hin as [->|Hin]; [by vm_compute in Hmd|]).
  by apply elem_of_nil in Hin.
Qed.

Lemma valid_type_not_root (c : string) : c ∈ VALID_TYPES -> c ≠ "root".
Proof.
  intros Hin ->. unfold VALID_TYPES in Hin.
  repeat (apply elem_of_cons in Hin as [Heq|Hin]; [by inversion Heq|]).
  by apply elem_of_nil in Hin.
Qed.

(** C5. For a relative path of the archive convention, with or without a
    category segment, the classifier yields facets, and the path rebuilt
    from these facets and the file name is the relative path itself. *)
Theorem parse_archive_path_round_trip (archive_base rel : Path) :
  convention rel ->
  ∃ f, parse_archive_path (archive_base ++ rel) archive_base = Ok (Some f) ∧
       rebuild_relative f (path_name (archive_base ++ rel)) = rel.
Proof.
  intros Hconv.
  rewrite (parse_archive_path_parts _ _ rel) by apply relative_to_app.
  assert (Hname : ∀ pre x y fname, path_name (pre ++ [x; y; fname]) = fname).
  { intros pre x y fname. unfold path_name.
    by rewrite reverse_app. }
  destruct Hconv as [p b ts fname Hts Hmd | p b ts c fname Hts Hc Hmd].
  - rewrite (match_digits_fullmatch_LF _ Hts).
    eexists. split; [done|].
    rewrite bool_decide_eq_false_2 by by apply glob_md_not_valid_type.
    replace (archive_base ++ [p; b; ts; fname])
      with ((archive_base ++ [p]) ++ [b; ts; fname]) by by rewrite <-app_assoc.
    rewrite Hname. reflexivity.
  - rewrite (match_digits_fullmatch_LF _ Hts).
    eexists. split; [done|].
    rewrite bool_decide_eq_true_2 by done.
    replace (archive_base ++ [p; b; ts; c; fname])
      with ((archive_base ++ [p; b]) ++ [ts; c; fname]) by by rewrite <-app_assoc.
    rewrite Hname. unfold rebuild_relative. simpl.
    by rewrite decide_False by by apply valid_type_not_root.
Qed.

Lemma parse_archive_path_round_trip_witness :
  convention ["proj"; "main"; Sample.ts1; "plans"; "x.md"] ∧
  ∃ f, parse_archive_path (Sample.base ++ ["proj"; "main"; Sample.ts1; "plans"; "x.md"])
         Sample.base = Ok (Some f) ∧
       rebuild_relative f
         (path_name (Sample.base ++ ["proj"; "main"; Sample.ts1; "plans"; "x.md"]))
         = ["proj"; "main"; Sample.ts1; "plans"; "x.md"].
Proof.
  assert (H : convention ["proj"; "main"; Sample.ts1; "plans"; "x.md"]).
  { apply convention_category; [reflexivity | | reflexivity].
    unfold VALID_TYPES. apply elem_of_cons. by left. }
  split; [exact H|].
  apply (parse_archive_path_round_trip Sample.base _ H).
Defined.

(** ** The query engine *)

Lemma select_rows_elem (E : fts5) (db : database) (q : string) (wh : list cond) (r : row) :
  r ∈ select_rows E db q wh ->
  ∃ d, d ∈ documents db ∧ r = row_of d (r_rank r) ∧ forallb (holds d) wh = true.
Proof.
  unfold select_rows. intros H.
  apply list_elem_of_bind in H as (f & H & _).
  apply list_elem_of_bind in H as (d & H & Hd).
  destruct (bool_decide (doc_id d = f.1)); [|by apply elem_of_nil in H].
  destruct (fts5_rank E q (documents_fts db) f) as [rk|]; [|by apply elem_of_nil in H].
  destruct (forallb (holds d) wh) eqn:Hwh; [|by apply elem_of_nil in H].
  apply list_elem_of_singleton in H as ->. by exists d.
Qed.

Lemma where_of_passes (args : search_args) (d : document) :
  forallb (holds d) (where_of args) = true -> passes_given args d.
Proof.
  unfold where_of, passes_given. rewrite !forallb_app, !andb_true_iff.
  intros (Hp & Ht & Hb & Hl). repeat split.
  - intros p Hg. rewrite Hg in Hp. simpl in Hp.
    rewrite andb_true_r in Hp. by apply bool_decide_eq_true in Hp.
  - intros t Hg. rewrite Hg in Ht. simpl in Ht.
    rewrite andb_true_r in Ht. by apply bool_decide_eq_true in Ht.
  - intros b Hg. rewrite Hg in Hb. simpl in Hb.
    rewrite andb_true_r in Hb. by apply bool_decide_eq_true in Hb.
  - intros Hg. rewrite Hg in Hl. simpl in Hl.
    rewrite andb_true_r in Hl. by apply bool_decide_eq_true in Hl.
Qed.

Lemma limit_subseteq {A} (n : Z) (l : list A) : limit n l ⊆ l.
Proof. unfold limit. case_bool_decide; [done|apply subseteq_take]. Qed.

Lemma limit_length {A} (n : Z) (l : list A) :
  0 <= n -> Z.of_nat (length (limit n l)) <= n.
Proof.
  intros Hn. unfold limit. rewrite bool_decide_eq_false_2 by lia.
  rewrite length_take. lia.
Qed.

Lemma search_rows_fetched (E : fts5) (db : database) (args : search_args)
    (rows : list row) :
  search_rows E db args = Ok (Fetched rows) ->
  rows = limit (arg_n args)
           (order_by_rank (select_rows E db (arg_pattern args) (where_of args))).
Proof.
  unfold search_rows, execute_search.
  destruct (sqlite_int (arg_n args)); [|done]. simpl.
  destruct (fts5_syntax_error E (arg_pattern args)); [done|]. by intros [= <-].
Qed.

Global Instance rank_le_trans : Transitive rank_le.
Proof. intros a b c. unfold rank_le. apply Qcle_trans. Qed.

Global Instance rank_le_total : Total rank_le.
Proof. intros a b. unfold rank_le. apply (total Qcle). Qed.

Lemma StronglySorted_lookup_lt {A} (R : relation A) (l : list A) (i j : nat) (x y : A) :
  StronglySorted R l -> (i < j)%nat -> l !! i = Some x -> l !! j = Some y -> R x y.
Proof.
  intros Hs. revert i j. induction Hs as [|a l Hs IH Hall]; intros i j Hij Hi Hj.
  - done.
  - destruct j as [|j]; [lia|]. destruct i as [|i]; simpl in *.
    + injection Hi as <-. rewrite Forall_lookup in Hall. by eapply Hall.
    + eapply (IH i j); [lia|done..].
Qed.

Lemma limit_sorted (n : Z) (l : list row) :
  StronglySorted rank_le l -> StronglySorted rank_le (limit n l).
Proof.
  intros Hs. unfold limit. case_bool_decide; [done|].
  rewrite <-(take_drop (Z.to_nat n) l) in Hs.
  by apply StronglySorted_app_1_l in Hs.
Qed.

(** C1, as amended. Every row that a search returns is the row of an indexed
    document that passes all the filters given a non-empty value, together;
    and when the limit is not negative, there are at most that many rows. *)
Theorem search_filters_conjunctive (E : fts5) (db : database) (args : search_args)
    (rows : list row) :
  search_rows E db args = Ok (Fetched rows) ->
  (∀ r, r ∈ rows ->
     ∃ d, d ∈ documents db ∧ r = row_of d (r_rank r) ∧ passes_given args d) ∧
  (0 <= arg_n args -> Z.of_nat (length rows) <= arg_n args).
Proof.
  intros H. apply search_rows_fetched in H as ->. split.
  - intros r Hr. apply limit_subseteq in Hr.
    unfold order_by_rank in Hr. rewrite merge_sort_Permutation in Hr.
    apply select_rows_elem in Hr as (d & Hd & Hrow & Hwh).
    exists d. eauto using where_of_passes.
  - apply limit_length.
Qed.

Lemma search_filters_conjunctive_witness :
  let args := SearchArgs "jwt" (Some "proj") (Some "plans") None true 20 false false true in
  let rows := [Row "/arch/proj/main/20240101_120000/plans/x.md" "proj" "main"
                   "20240101_120000" (Some "plans") "x.md" (Q2Qc (inject_Z (-1)))] in
  search_rows Sample.engine (get_db Sample.indexed) args = Ok (Fetched rows) ∧
  (∀ r, r ∈ rows ->
     ∃ d, d ∈ documents (get_db Sample.indexed) ∧ r = row_of d (r_rank r)
          ∧ passes_given args d) ∧
  (0 <= arg_n args -> Z.of_nat (length rows) <= arg_n args).
Proof.
  assert (H : search_rows Sample.engine (get_db Sample.indexed)
                (SearchArgs "jwt" (Some "proj") (Some "plans") None true 20 false false true)
              = Ok (Fetched
                  [Row "/arch/proj/main/20240101_120000/plans/x.md" "proj" "main"
                       "20240101_120000" (Some "plans") "x.md" (Q2Qc (inject_Z (-1)))]))
    by (vm_compute; reflexivity).
  split; [exact H|].
  exact (search_filters_conjunctive _ _ _ _ H).
Defined.

(** C1 fails as worded: with [--project ""] the filter is dropped and
    documents of a project with a name are returned, and with [-n -1] every
    match is returned, which is more than the limit. *)
Lemma search_filters_conjunctive_counterexample :
  ¬ search_respects_filters_and_limit Sample.engine (get_db Sample.indexed)
      (SearchArgs "jwt" (Some "") None None false 20 false false true) ∧
  ¬ search_respects_filters_and_limit Sample.engine (get_db Sample.indexed)
      (SearchArgs "jwt" None None None false (-1) false false true).
Proof.
  split; intros H.
  - destruct (H _ eq_refl) as [Hall _].
    destruct (Hall (Row "/arch/proj/main/20240101_120000/plans/x.md" "proj" "main"
                        "20240101_120000" (Some "plans") "x.md" (Q2Qc (inject_Z (-1)))))
      as (d & _ & Hrow & Hp & _).
    + vm_compute. apply elem_of_cons. right. apply elem_of_cons. by left.
    + specialize (Hp _ eq_refl). apply (f_equal r_project) in Hrow.
      simpl in Hrow. by rewrite Hp in Hrow.
  - destruct (H _ eq_refl) as [_ Hlen]. vm_compute in Hlen. by apply Hlen.
Qed.

(** C2. The rows of a search that succeeds are in the order of the engine's
    rank, best first: of two rows, the one that comes first has a rank at
    least as good as (not greater than) that of the other. *)
Theorem search_rows_ranked (E : fts5) (db : database) (args : search_args)
    (rows : list row) (i j : nat) (r1 r2 : row) :
  search_rows E db args = Ok (Fetched rows) ->
  (i < j)%nat -> rows !! i = Some r1 -> rows !! j = Some r2 ->
  (r_rank r1 <= r_rank r2)%Qc.
Proof.
  intros H. apply search_rows_fetched in H as ->.
  apply (StronglySorted_lookup_lt rank_le).
  apply limit_sorted, StronglySorted_merge_sort; apply _.
Qed.

Lemma search_rows_ranked_witness :
  let rows := [Row "/arch/proj/main/20240202_101010/old.md" "proj" "main"
                   "20240202_101010" (Some "root") "old.md" (Q2Qc (inject_Z (-2)));
               Row "/arch/proj/main/20240101_120000/plans/x.md" "proj" "main"
                   "20240101_120000" (Some "plans") "x.md" (Q2Qc (inject_Z (-1)))] in
  search_rows Sample.engine (get_db Sample.indexed)
    (SearchArgs "jwt" None None None false 2 false false true) = Ok (Fetched rows) ∧
  (0 < 1)%nat ∧
  (Q2Qc (inject_Z (-2)) <= Q2Qc (inject_Z (-1)))%Qc.
Proof.
  assert (H : search_rows Sample.engine (get_db Sample.indexed)
                (SearchArgs "jwt" None None None false 2 false false true)
              = Ok (Fetched
                  [Row "/arch/proj/main/20240202_101010/old.md" "proj" "main"
                       "20240202_101010" (Some "root") "old.md" (Q2Qc (inject_Z (-2)));
                   Row "/arch/proj/main/20240101_120000/plans/x.md" "proj" "main"
                       "20240101_120000" (Some "plans") "x.md" (Q2Qc (inject_Z (-1)))]))
    by (vm_compute; reflexivity).
  split; [exact H|]. split; [lia|].
  exact (search_rows_ranked _ _ _ _ 0%nat 1%nat _ _ H ltac:(lia) eq_refl eq_refl).
Defined.




(** The example of the specification: of [x.md] under [plans] and [y.md]
    under [research], both about jwt rotation, a search restricted to the
    category [plans] returns [x.md] alone. *)
Example search_jwt_rotation_plans :
  do_search Sample.base Sample.fs Sample.engine Sample.piped
    (SearchArgs "jwt rotation" None (Some "plans") None false 20 false false true)
    Sample.indexed
  = Ok (Outcome 0 ["[2.00] proj/main/20240101_120000/plans/x.md:1"] [] []).
Proof. vm_compute. reflexivity. Qed.

(** ** The result presenter *)





(** ** The indexer *)

Lemma foldr_max_bound (a : Z) (l : list Z) :
  a <= foldr Z.max a l ∧ ∀ x, x ∈ l -> x <= foldr Z.max a l.
Proof.
  induction l as [|y l [IHa IHl]]; simpl.
  - split; [lia|]. by intros x ?%elem_of_nil.
  - split; [lia|]. intros x [->|Hx]%elem_of_cons; [lia|].
    specialize (IHl x Hx). lia.
Qed.

Lemma next_rowid_fresh (rows : list document) (d : document) :
  d ∈ rows -> doc_id d < next_rowid rows.
Proof.
  destruct rows as [|d0 rest]; [by intros ?%elem_of_nil|].
  simpl. destruct (foldr_max_bound (doc_id d0) (doc_id <$> rest)) as [Ha Hl].
  intros [->|Hd]%elem_of_cons; [lia|].
  specialize (Hl (doc_id d) (list_elem_of_fmap_2 _ _ _ Hd)). lia.
Qed.

Section ingest.
Variables (fs : filesystem) (archive_base : Path).
Variables (latest_dirs : gset string) (now : string).

Local Abbreviation step := (ingest_file fs archive_base latest_dirs now).
Local Abbreviation loop := (ingest_loop fs archive_base latest_dirs now).

(** One iteration only appends: at most one document, made from the file,
    and at most one content record, under the new document's id. *)
Lemma ingest_file_appends (st st' : ingest_state) (md_file : Path) :
  step st md_file = Ok st' ->
  ∃ new_docs new_fts,
    documents (st_db st') = documents (st_db st) ++ new_docs ∧
    documents_fts (st_db st') = documents_fts (st_db st) ++ new_fts ∧
    Forall (indexed_from archive_base latest_dirs now md_file) new_docs ∧
    Forall (fun r => r.1 = next_rowid (documents (st_db st))) new_fts.
Proof.
  unfold ingest_file. intros H.
  assert (Hsame : st' = st ∨ st' = IngestState (st_db st) (st_count st) (st_errors st + 1) ->
    ∃ new_docs new_fts,
      documents (st_db st') = documents (st_db st) ++ new_docs ∧
      documents_fts (st_db st') = documents_fts (st_db st) ++ new_fts ∧
      Forall (indexed_from archive_base latest_dirs now md_file) new_docs ∧
      Forall (fun r => r.1 = next_rowid (documents (st_db st))) new_fts).
  { intros [->| ->]; exists [], []; by rewrite !app_nil_r. }
  case_bool_decide; [injection H as <-; auto|].
  destruct (existsb _ SKIP_DIRS); [injection H as <-; auto|].
  destruct (parse_archive_path md_file archive_base) as [[f|]|e] eqn:Hparse;
    simpl in H; [|injection H as <-; auto|done].
  destruct (fs_read_text fs md_file) as [content|]; [|injection H as <-; auto].
  unfold insert_document in H. case_bool_decide; [injection H as <-; auto|].
  unfold insert_fts in H. simpl in H.
  assert (Hdoc : indexed_from archive_base latest_dirs now md_file
            (Document (next_rowid (documents (st_db st))) (f_project f) (f_branch f)
               (f_timestamp f) (f_dir_type f) (path_str md_file) (path_name md_file)
               (if bool_decide (path_str (ts_dir_of archive_base f) ∈ latest_dirs)
                then 1 else 0) now)).
  { by exists f. }
  match type of H with context [bool_decide (?i ∈ fst <$> ?t)] =>
    destruct (bool_decide (i ∈ fst <$> t)) end; injection H as <-; simpl.
  - eexists [_], []. rewrite app_nil_r. repeat split; auto.
  - eexists [_], [_]. repeat split; auto.
Qed.

Lemma ingest_loop_appends (files : list Path) (st st' : ingest_state) :
  loop st files = Ok st' ->
  ∃ new_docs new_fts,
    documents (st_db st') = documents (st_db st) ++ new_docs ∧
    documents_fts (st_db st') = documents_fts (st_db st) ++ new_fts ∧
    Forall (fun d => ∃ md_file, md_file ∈ files ∧
              indexed_from archive_base latest_dirs now md_file d) new_docs ∧
    Forall (fun r => ∀ d, d ∈ documents (st_db st) -> doc_id d < r.1) new_fts.
Proof.
  revert st. induction files as [|md_file rest IH]; intros st H; simpl in H.
  - injection H as <-. exists [], []. by rewrite !app_nil_r.
  - destruct (step st md_file) as [st1|e] eqn:Hstep; [simpl in H|done].
    apply ingest_file_appends in Hstep as (nd1 & nf1 & Hd1 & Hf1 & Hall1 & Hid1).
    apply IH in H as (nd2 & nf2 & Hd2 & Hf2 & Hall2 & Hid2).
    exists (nd1 ++ nd2), (nf1 ++ nf2). rewrite Hd2, Hf2, Hd1, Hf1, <-!app_assoc.
    repeat split; [done..| |].
    + apply Forall_app. split.
      * eapply Forall_impl; [exact Hall1|]. intros d Hd. exists md_file.
        split; [by apply elem_of_cons; left|done].
      * eapply Forall_impl; [exact Hall2|]. intros d (md & Hmd & Hd). exists md.
        split; [by apply elem_of_cons; right|done].
    + apply Forall_app. split.
      * eapply Forall_impl; [exact Hid1|]. intros r -> d Hd.
        by apply next_rowid_fresh.
      * eapply Forall_impl; [exact Hid2|]. intros r Hr d Hd. apply Hr.
        rewrite Hd1. apply elem_of_app. by left.
Qed.



End ingest.

(** A full rebuild of the sample archive indexes the four readable files
    and skips the one that cannot be read; a second run gives the same
    index. *)
Example full_rebuild_sample :
  (do_ingest Sample.base Sample.fs Sample.now None None).1
  = Ok (Outcome 0 ["indexed 4 documents into /arch/archives.db";
                   "skipped 1 files (read errors or duplicates)"] [] []) ∧
  (do_ingest Sample.base Sample.fs Sample.now None Sample.indexed).2 = Sample.indexed.
Proof. split; vm_compute; reflexivity. Qed.

(** ** The latest resolver *)





(** ** Scoped rebuilds *)

Lemma delete_fts_fold (ids : list Z) (t : list (Z * string)) (r : Z * string) :
  r ∈ foldl (fun t i => filter (fun r => r.1 ≠ i) t) t ids <-> r ∈ t ∧ r.1 ∉ ids.
Proof.
  revert t. induction ids as [|i ids IH]; intros t; simpl.
  - split; [intros H; split; [done|apply not_elem_of_nil]|by intros [? _]].
  - rewrite IH, list_elem_of_filter, not_elem_of_cons. tauto.
Qed.

Lemma NoDup_fmap_eq {A B} (f : A -> B) (l : list A) (x y : A) :
  NoDup (f <$> l) -> x ∈ l -> y ∈ l -> f x = f y -> x = y.
Proof.
  induction l as [|a l IH]; simpl; [by intros _ ?%elem_of_nil|].
  rewrite NoDup_cons. intros [Hnotin Hnd] [->|Hx]%elem_of_cons [->|Hy]%elem_of_cons Heq.
  - done.
  - exfalso. apply Hnotin. rewrite Heq. by apply list_elem_of_fmap_2.
  - exfalso. apply Hnotin. rewrite <-Heq. by apply list_elem_of_fmap_2.
  - by apply IH.
Qed.






(** ** Ingestion runs to its end *)





(** * Further properties *)

(** ** The store keeps its invariants *)

Lemma wf_db_empty : wf_db (Database [] []).
Proof.
  split; simpl; try apply NoDup_nil_2; by intros ? ?%elem_of_nil.
Qed.

Lemma delete_fts_sublist (ids : list Z) (t : list (Z * string)) :
  foldl (fun t i => filter (fun r => r.1 ≠ i) t) t ids `sublist_of` t.
Proof.
  revert t. induction ids as [|i ids IH]; intros t; simpl; [done|].
  etrans; [apply IH|]. apply sublist_filter.
Qed.

Lemma delete_project_wf (A : string) (db : database) :
  wf_db db -> wf_db (delete_project A db).
Proof.
  intros [Hids Hfps Hrow Hfd Hdf]. unfold delete_project. split; simpl.
  - eapply sublist_NoDup; [exact Hids|]. apply fmap_sublist, sublist_filter.
  - eapply sublist_NoDup; [exact Hfps|]. apply fmap_sublist, sublist_filter.
  - eapply sublist_NoDup; [exact Hrow|]. apply fmap_sublist, delete_fts_sublist.
  - intros r [Hr Hnot]%delete_fts_fold.
    apply Hfd, list_elem_of_fmap in Hr as (d & Hid & Hd).
    apply list_elem_of_fmap. exists d. split; [done|].
    apply list_elem_of_filter. split; [|done]. intros Hp. apply Hnot.
    rewrite Hid. apply list_elem_of_fmap_2. by apply list_elem_of_filter.
  - intros d [Hp Hd]%list_elem_of_filter.
    pose proof (Hdf d Hd) as (r & Hid & Hr)%list_elem_of_fmap.
    apply list_elem_of_fmap. exists r. split; [done|].
    apply delete_fts_fold. split; [done|].
    intros (d' & Hid' & [Hp' Hd']%list_elem_of_filter)%list_elem_of_fmap.
    assert (d = d') as -> by (eapply (NoDup_fmap_eq doc_id); [done..|congruence]).
    done.
Qed.

(** One iteration keeps the invariants, and counts a file as indexed
    exactly when it adds a document. *)
Lemma ingest_file_wf (fs : filesystem) (archive_base : Path)
    (latest_dirs : gset string) (now : string) (st st' : ingest_state) (md_file : Path) :
  wf_db (st_db st) ->
  ingest_file fs archive_base latest_dirs now st md_file = Ok st' ->
  wf_db (st_db st') ∧
  Z.of_nat (length (documents (st_db st'))) - st_count st'
    = Z.of_nat (length (documents (st_db st))) - st_count st.
Proof.
  intros Hwf H. unfold ingest_file in H.
  case_bool_decide; [by injection H as <-|].
  destruct (existsb _ SKIP_DIRS); [by injection H as <-|].
  destruct (parse_archive_path md_file archive_base) as [[f|]|e];
    simpl in H; [|by injection H as <-|done].
  destruct (fs_read_text fs md_file) as [content|]; [|by injection H as <-].
  unfold insert_document in H. case_bool_decide as Hfp; [by injection H as <-|].
  unfold insert_fts in H. simpl in H.
  destruct Hwf as [Hids Hfps Hrow Hfd Hdf].
  assert (Hfresh : next_rowid (documents (st_db st)) ∉ doc_id <$> documents (st_db st)).
  { intros (d & Hid & Hd)%list_elem_of_fmap.
    apply next_rowid_fresh in Hd. lia. }
  assert (Hfree : next_rowid (documents (st_db st)) ∉ fst <$> documents_fts (st_db st)).
  { intros (r & Hid & Hr)%list_elem_of_fmap. apply Hfresh. rewrite Hid. by apply Hfd. }
  match type of H with context [bool_decide (?i ∈ fst <$> ?t)] =>
    rewrite (bool_decide_eq_false_2 (i ∈ fst <$> t)) in H by done end.
  injection H as <-. simpl. split.
  - split; simpl.
    + rewrite fmap_app. apply NoDup_app. repeat split; [done| |apply NoDup_singleton].
      intros x Hx ->%list_elem_of_singleton. done.
    + rewrite fmap_app. apply NoDup_app. repeat split; [done| |apply NoDup_singleton].
      intros x Hx ->%list_elem_of_singleton. done.
    + rewrite fmap_app. apply NoDup_app. repeat split; [done| |apply NoDup_singleton].
      intros x Hx ->%list_elem_of_singleton. done.
    + intros r [Hr| ->%list_elem_of_singleton]%elem_of_app; rewrite fmap_app, elem_of_app.
      * left. by apply Hfd.
      * right. by apply list_elem_of_singleton.
    + intros d [Hd| ->%list_elem_of_singleton]%elem_of_app; rewrite fmap_app, elem_of_app.
      * left. by apply Hdf.
      * right. by apply list_elem_of_singleton.
  - rewrite length_app. simpl. lia.
Qed.

Lemma ingest_loop_wf (fs : filesystem) (archive_base : Path)
    (latest_dirs : gset string) (now : string) (files : list Path)
    (st st' : ingest_state) :
  wf_db (st_db st) ->
  ingest_loop fs archive_base latest_dirs now st files = Ok st' ->
  wf_db (st_db st') ∧
  Z.of_nat (length (documents (st_db st'))) - st_count st'
    = Z.of_nat (length (documents (st_db st))) - st_count st.
Proof.
  revert st. induction files as [|md_file rest IH]; intros st Hwf H; simpl in H.
  - by injection H as <-.
  - destruct (ingest_file _ _ _ _ st md_file) as [st1|e] eqn:Hstep; [simpl in H|done].
    destruct (ingest_file_wf _ _ _ _ _ _ _ Hwf Hstep) as [Hwf1 Hc1].
    destruct (IH st1 Hwf1 H) as [Hwf' Hc']. split; [done|lia].
Qed.

Lemma cleared_wf (proj : option string) (file : option database) :
  given proj = None ∨ wf_db (get_db file) -> wf_db (cleared proj file).
Proof.
  unfold cleared. intros [->|Hwf]; [apply wf_db_empty|].
  destruct (given proj); [by apply delete_project_wf|apply wf_db_empty].
Qed.

(** X1. Ingestion keeps the store well formed: from an index in which ids
    and file paths are unique and documents and content records correspond
    one to one, a run of [do_ingest], full or scoped, ended or interrupted,
    leaves an index with the same properties. *)
Theorem do_ingest_keeps_wf (ARCHIVE_BASE : Path) (fs : filesystem) (now : string)
    (proj : option string) (file : option database) :
  wf_db (get_db file) ->
  wf_db (get_db (do_ingest ARCHIVE_BASE fs now proj file).2).
Proof.
  intros Hwf. unfold do_ingest.
  destruct (fs_exists fs ARCHIVE_BASE); cbn [negb]; [|done].
  match goal with |- context [?b && negb ?c] => destruct (b && negb c) end; [done|].
  destruct (ingest_loop _ _ _ _ _ _) as [st|e] eqn:Hloop; cbn [snd get_db].
  - apply ingest_loop_wf in Hloop as [? _]; [done|]. apply cleared_wf. by right.
  - apply cleared_wf. by right.
Qed.

Lemma do_ingest_keeps_wf_witness :
  wf_db (get_db Sample.indexed) ∧
  wf_db (get_db (do_ingest Sample.base Sample.fs Sample.now (Some "proj")
                   Sample.indexed).2).
Proof.
  assert (H : wf_db (get_db Sample.indexed)).
  { split.
    - apply (bool_decide_unpack _). vm_compute. exact I.
    - apply (bool_decide_unpack _). vm_compute. exact I.
    - apply (bool_decide_unpack _). vm_compute. exact I.
    - apply Forall_forall. apply (bool_decide_unpack _). vm_compute. exact I.
    - apply Forall_forall. apply (bool_decide_unpack _). vm_compute. exact I. }
  split; [exact H|].
  exact (do_ingest_keeps_wf Sample.base Sample.fs Sample.now (Some "proj")
           Sample.indexed H).
Defined.

(** X2. After a full rebuild that ran, the index is well formed whatever
    was there before, the number that the run reports as indexed is the
    number of documents in the index, and there are as many content
    records. *)
Theorem full_rebuild_counts (ARCHIVE_BASE : Path) (fs : filesystem) (now : string)
    (file : option database) (o : outcome) (db' : database) :
  do_ingest ARCHIVE_BASE fs now None file = (Ok o, Some db') ->
  status o = 0 ->
  wf_db db' ∧
  length (documents_fts db') = length (documents db') ∧
  head (out o) = Some ("indexed " +:+ pretty (Z.of_nat (length (documents db')))
                         +:+ " documents into " +:+ path_str (DB_PATH ARCHIVE_BASE)).
Proof.
  unfold do_ingest. intros H Hst.
  destruct (fs_exists fs ARCHIVE_BASE); cbn [negb] in H;
    [|injection H as <- _; simpl in Hst; lia].
  cbn [given bool_decide andb] in H.
  match type of H with context [?b && negb ?c] =>
    replace (b && negb c) with false in H end.
  2:{ symmetry. apply andb_false_iff. left. apply bool_decide_eq_false_2.
      by intros [? ?]. }
  destruct (ingest_loop _ _ _ _ _ _) as [st|e] eqn:Hloop; [|done].
  injection H as <- <-.
  apply ingest_loop_wf in Hloop as [Hwf Hc]; [|apply wf_db_empty].
  simpl in Hc. split; [done|]. split.
  - destruct Hwf as [Hids _ Hrow Hfd Hdf].
    apply Nat.le_antisymm.
    + rewrite <-(length_fmap fst), <-(length_fmap doc_id).
      apply submseteq_length, NoDup_submseteq; [done|].
      intros x (r & -> & Hr)%list_elem_of_fmap. by apply Hfd.
    + rewrite <-(length_fmap fst), <-(length_fmap doc_id).
      apply submseteq_length, NoDup_submseteq; [done|].
      intros x (d & -> & Hd)%list_elem_of_fmap. by apply Hdf.
  - simpl. replace (st_count st) with (Z.of_nat (length (documents (st_db st))))
      by (simpl in Hc; lia). done.
Qed.

Lemma full_rebuild_counts_witness :
  (∃ o db', do_ingest Sample.base Sample.fs Sample.now None None = (Ok o, Some db') ∧
            status o = 0) ∧
  ∃ o db', do_ingest Sample.base Sample.fs Sample.now None None = (Ok o, Some db') ∧
    wf_db db' ∧
    length (documents_fts db') = length (documents db') ∧
    head (out o) = Some ("indexed " +:+ pretty (Z.of_nat (length (documents db')))
                           +:+ " documents into " +:+ path_str (DB_PATH Sample.base)).
Proof.
  split.
  - eexists _, _. split; [vm_compute; reflexivity|reflexivity].
  - eexists _, _. split; [vm_compute; reflexivity|].
    eapply (full_rebuild_counts Sample.base Sample.fs Sample.now None).
    + vm_compute. reflexivity.
    + reflexivity.
Defined.

(** ** What a run of the indexer leaves in the index *)

Lemma ingest_file_present (fs : filesystem) (archive_base : Path)
    (latest_dirs : gset string) (now : string) (st st' : ingest_state)
    (md_file : Path) (content : string) :
  ingest_file fs archive_base latest_dirs now st md_file = Ok st' ->
  candidate archive_base md_file = true ->
  fs_read_text fs md_file = Some content ->
  path_str md_file ∈ filepath <$> documents (st_db st').
Proof.
  unfold ingest_file, candidate. intros H Hcand Hread.
  apply andb_true_iff in Hcand as [[Hskip Hdir]%andb_true_iff Hparse].
  apply negb_true_iff in Hskip, Hdir. rewrite Hskip, Hdir in H.
  destruct (parse_archive_path md_file archive_base) as [[f|]|e]; [|done..].
  cbn [py_bind] in H. rewrite Hread in H. unfold insert_document in H.
  destruct (decide (path_str md_file ∈ filepath <$> documents (st_db st))) as [Hfp|Hfp].
  { rewrite (bool_decide_eq_true_2 _ Hfp) in H. by injection H as <-. }
  rewrite (bool_decide_eq_false_2 _ Hfp) in H.
  unfold insert_fts in H. simpl in H.
  match type of H with context [bool_decide (?i ∈ fst <$> ?t)] =>
    destruct (bool_decide (i ∈ fst <$> t)) end; injection H as <-; simpl;
    rewrite fmap_app, elem_of_app; right; by apply list_elem_of_singleton.
Qed.

Lemma ingest_loop_present (fs : filesystem) (archive_base : Path)
    (latest_dirs : gset string) (now : string) (files : list Path)
    (st st' : ingest_state) (md_file : Path) (content : string) :
  ingest_loop fs archive_base latest_dirs now st files = Ok st' ->
  md_file ∈ files ->
  candidate archive_base md_file = true ->
  fs_read_text fs md_file = Some content ->
  path_str md_file ∈ filepath <$> documents (st_db st').
Proof.
  revert st. induction files as [|f rest IH]; intros st H Hin Hcand Hread.
  { by apply elem_of_nil in Hin. }
  simpl in H.
  destruct (ingest_file _ _ _ _ st f) as [st1|e] eqn:Hstep; [simpl in H|done].
  apply elem_of_cons in Hin as [->|Hin]; [|by eapply IH].
  eapply ingest_file_present in Hstep; [|done..].
  apply ingest_loop_appends in H as (nd & _ & -> & _).
  rewrite fmap_app, elem_of_app. by left.
Qed.

(** X3. After an ingestion that ran, full or scoped, every markdown file of
    the walk that is neither passed over nor rejected by the classifier,
    and that can be read, has a document in the index under its path. *)
Theorem ingest_indexes_readable_files (ARCHIVE_BASE : Path) (fs : filesystem)
    (now : string) (proj : option string) (file : option database)
    (o : outcome) (db' : database) (md_file : Path) (content : string) :
  do_ingest ARCHIVE_BASE fs now proj file = (Ok o, Some db') ->
  status o = 0 ->
  md_file ∈ rglob fs (scan_root_of ARCHIVE_BASE proj) glob_md ->
  candidate ARCHIVE_BASE md_file = true ->
  fs_read_text fs md_file = Some content ->
  ∃ d, d ∈ documents db' ∧ filepath d = path_str md_file.
Proof.
  unfold do_ingest. intros H Hst Hin Hcand Hread.
  destruct (fs_exists fs ARCHIVE_BASE); cbn [negb] in H;
    [|injection H as <- _; simpl in Hst; lia].
  match type of H with context [?b && negb ?c] => destruct (b && negb c) end;
    [injection H as <- _; simpl in Hst; lia|].
  destruct (ingest_loop _ _ _ _ _ _) as [st|e] eqn:Hloop; [|done].
  injection H as _ <-.
  eapply ingest_loop_present in Hloop; [|done..].
  apply list_elem_of_fmap in Hloop as (d & Hfp & Hd). by exists d.
Qed.

Lemma ingest_indexes_readable_files_witness :
  (do_ingest Sample.base Sample.fs Sample.now (Some "proj") None
   = (Ok (Outcome 0 ["indexed 3 documents into /arch/archives.db"] [] []),
      (do_ingest Sample.base Sample.fs Sample.now (Some "proj") None).2) ∧
   Sample.old_md ∈ rglob Sample.fs (scan_root_of Sample.base (Some "proj")) glob_md ∧
   candidate Sample.base Sample.old_md = true ∧
   is_Some (fs_read_text Sample.fs Sample.old_md)) ∧
  ∃ d, d ∈ documents (get_db (do_ingest Sample.base Sample.fs Sample.now
                               (Some "proj") None).2)
       ∧ filepath d = path_str Sample.old_md.
Proof.
  assert (Hin : Sample.old_md
                ∈ rglob Sample.fs (scan_root_of Sample.base (Some "proj")) glob_md).
  { vm_compute. do 2 (apply elem_of_cons; right). apply elem_of_cons. by left. }
  split.
  - split; [vm_compute; reflexivity|]. split; [exact Hin|]. split; [reflexivity|].
    by eexists.
  - eapply (ingest_indexes_readable_files Sample.base Sample.fs Sample.now
              (Some "proj") None).
    + vm_compute. reflexivity.
    + reflexivity.
    + exact Hin.
    + reflexivity.
    + reflexivity.
Defined.

(** X4. A scoped ingestion replaces the project: once the checks have
    passed, every document of project [A] in the index was written by this
    run, from a markdown file of the walk of [<root>/A] and with this run's
    time; no row of [A] from an earlier run is left. *)
Theorem scoped_ingest_replaces_project (ARCHIVE_BASE : Path) (fs : filesystem)
    (now A : string) (file : option database) (d : document) :
  A ≠ "" ->
  fs_exists fs ARCHIVE_BASE = true ->
  fs_exists fs (joinpath ARCHIVE_BASE A) = true ->
  d ∈ documents (get_db (do_ingest ARCHIVE_BASE fs now (Some A) file).2) ->
  project d = A ->
  ∃ md_file, md_file ∈ rglob fs (joinpath ARCHIVE_BASE A) glob_md ∧
    indexed_from ARCHIVE_BASE (resolve_latest_timestamps fs ARCHIVE_BASE) now md_file d.
Proof.
  intros HA Hbase Hdir. unfold do_ingest, scan_root_of, cleared, given.
  destruct (decide (A = "")) as [|_]; [done|].
  rewrite Hbase, Hdir. cbn [negb andb]. rewrite andb_false_r.
  intros Hd Hp.
  assert (Hgone : d ∉ documents (delete_project A (ensure_schema (get_db file)))).
  { unfold delete_project. simpl. by intros [? _]%list_elem_of_filter. }
  destruct (ingest_loop _ _ _ _ _ _) as [st|e] eqn:Hloop; cbn [snd get_db] in Hd;
    [|done].
  apply ingest_loop_appends in Hloop as (nd & _ & Hdocs & _ & Hall & _).
  simpl in Hdocs. rewrite Hdocs in Hd. apply elem_of_app in Hd as [Hd|Hd]; [done|].
  rewrite Forall_forall in Hall. by apply Hall.
Qed.

Lemma scoped_ingest_replaces_project_witness :
  let d := Document 5 "proj" "main" "20240101_120000" (Some "plans")
             "/arch/proj/main/20240101_120000/plans/x.md" "x.md" 1 "later" in
  ("proj" ≠ "" ∧ fs_exists Sample.fs Sample.base = true ∧
   fs_exists Sample.fs (joinpath Sample.base "proj") = true ∧
   d ∈ documents (get_db (do_ingest Sample.base Sample.fs "later" (Some "proj")
                            Sample.indexed).2) ∧
   project d = "proj") ∧
  ∃ md_file, md_file ∈ rglob Sample.fs (joinpath Sample.base "proj") glob_md ∧
    indexed_from Sample.base (resolve_latest_timestamps Sample.fs Sample.base)
      "later" md_file d.
Proof.
  assert (Hd : Document 5 "proj" "main" "20240101_120000" (Some "plans")
                 "/arch/proj/main/20240101_120000/plans/x.md" "x.md" 1 "later"
               ∈ documents (get_db (do_ingest Sample.base Sample.fs "later" (Some "proj")
                                      Sample.indexed).2)).
  { vm_compute. apply elem_of_cons; right. apply elem_of_cons. by left. }
  split; [repeat split; [done|exact Hd]|].
  exact (scoped_ingest_replaces_project Sample.base Sample.fs "later" "proj"
           Sample.indexed _ ltac:(done) eq_refl eq_refl Hd eq_refl).
Defined.

(** X5. [do_ingest] returns 1 exactly when the archive root is missing or a
    project is named whose directory is missing; it then prints nothing on
    standard output and leaves the database file as it was, not even
    creating it. *)
Theorem do_ingest_config_errors (ARCHIVE_BASE : Path) (fs : filesystem) (now : string)
    (proj : option string) (file : option database) :
  let missing :=
    fs_exists fs ARCHIVE_BASE = false ∨
    ∃ p, given proj = Some p ∧ fs_exists fs (joinpath ARCHIVE_BASE p) = false in
  ((∃ o, (do_ingest ARCHIVE_BASE fs now proj file).1 = Ok o ∧ status o = 1)
   <-> missing) ∧
  (missing ->
   ∃ msg, do_ingest ARCHIVE_BASE fs now proj file = (Ok (Outcome 1 [] [msg] []), file)).
Proof.
  cbv zeta. unfold do_ingest, scan_root_of.
  destruct (fs_exists fs ARCHIVE_BASE) eqn:Hbase; cbn [negb].
  2:{ split; [|by eexists]. split; [by left|]. intros _. by eexists. }
  destruct (given proj) as [p|] eqn:Hg.
  - rewrite bool_decide_eq_true_2 by by eexists. cbn [andb].
    destruct (fs_exists fs (joinpath ARCHIVE_BASE p)) eqn:Hdir; cbn [negb].
    + split.
      * split.
        -- intros (o & Ho & Hst).
           destruct (ingest_loop _ _ _ _ _ _); simpl in Ho; [|done].
           injection Ho as <-. simpl in Hst. lia.
        -- intros [?|(p' & [= <-] & ?)]; congruence.
      * intros [?|(p' & [= <-] & ?)]; congruence.
    + split; [|by eexists]. split; [|by eexists].
      intros _. right. by exists p.
  - rewrite bool_decide_eq_false_2 by by intros [? ?]. cbn [andb]. split.
    + split.
      * intros (o & Ho & Hst).
        destruct (ingest_loop _ _ _ _ _ _); simpl in Ho; [|done].
        injection Ho as <-. simpl in Hst. lia.
      * intros [?|(p' & ? & ?)]; congruence.
    + intros [?|(p' & ? & ?)]; congruence.
Qed.

(** ** What a search returns *)

Lemma passes_where_of (args : search_args) (d : document) :
  passes_given args d -> forallb (holds d) (where_of args) = true.
Proof.
  unfold where_of, passes_given. intros (Hp & Ht & Hb & Hl).
  rewrite !forallb_app, !andb_true_iff. repeat split.
  - destruct (given (arg_project args)) as [p|]; [|done]. simpl.
    by rewrite (Hp p eq_refl), bool_decide_eq_true_2.
  - destruct (given (arg_type args)) as [t|]; [|done]. simpl.
    by rewrite (Ht t eq_refl), bool_decide_eq_true_2.
  - destruct (given (arg_branch args)) as [b|]; [|done]. simpl.
    by rewrite (Hb b eq_refl), bool_decide_eq_true_2.
  - destruct (arg_latest args); [|done]. simpl.
    by rewrite (Hl eq_refl), bool_decide_eq_true_2.
Qed.

Lemma select_rows_iff (E : fts5) (db : database) (q : string) (wh : list cond) (r : row) :
  r ∈ select_rows E db q wh <->
  ∃ d c, d ∈ documents db ∧ (doc_id d, c) ∈ documents_fts db ∧
         fts5_rank E q (documents_fts db) (doc_id d, c) = Some (r_rank r) ∧
         forallb (holds d) wh = true ∧ r = row_of d (r_rank r).
Proof.
  unfold select_rows. split.
  - intros H. apply list_elem_of_bind in H as ([i c] & H & Hf).
    apply list_elem_of_bind in H as (d & H & Hd).
    case_bool_decide as Hid; [|by apply elem_of_nil in H]. simpl in Hid. subst i.
    destruct (fts5_rank E q (documents_fts db) (doc_id d, c)) as [rk|] eqn:Hrk;
      [|by apply elem_of_nil in H].
    destruct (forallb (holds d) wh) eqn:Hwh; [|by apply elem_of_nil in H].
    apply list_elem_of_singleton in H as ->. by exists d, c.
  - intros (d & c & Hd & Hf & Hrk & Hwh & ->).
    apply list_elem_of_bind. exists (doc_id d, c). split; [|done].
    apply list_elem_of_bind. exists d. split; [|done].
    rewrite bool_decide_eq_true_2 by done. simpl in Hrk. rewrite Hrk, Hwh.
    by apply list_elem_of_singleton.
Qed.

Lemma limit_all {A} (n : Z) (l : list A) :
  n < 0 ∨ (Z.of_nat (length (limit n l)) < n) -> limit n l = l.
Proof.
  unfold limit. case_bool_decide; [done|]. intros [?|Hlen]; [lia|].
  rewrite length_take in Hlen. apply take_ge. lia.
Qed.

(** X6. The rows of a search are rows of indexed documents whose content
    record matches the query, each with the rank of that match, and whose
    document passes the filters that were given; and when the limit is
    negative, or fewer rows than the limit are returned, every such
    document is among the rows. *)
Theorem search_rows_exact (E : fts5) (db : database) (args : search_args)
    (rows : list row) (r : row) :
  search_rows E db args = Ok (Fetched rows) ->
  let is_match :=
    ∃ d c, d ∈ documents db ∧ (doc_id d, c) ∈ documents_fts db ∧
           fts5_rank E (arg_pattern args) (documents_fts db) (doc_id d, c)
             = Some (r_rank r) ∧
           passes_given args d ∧ r = row_of d (r_rank r) in
  (r ∈ rows -> is_match) ∧
  (arg_n args < 0 ∨ Z.of_nat (length rows) < arg_n args -> is_match -> r ∈ rows).
Proof.
  intros H. cbv zeta. apply search_rows_fetched in H as ->. split.
  - intros Hr%limit_subseteq. unfold order_by_rank in Hr.
    rewrite merge_sort_Permutation in Hr.
    apply select_rows_iff in Hr as (d & c & Hd & Hf & Hrk & Hwh & Hrow).
    exists d, c. eauto 6 using where_of_passes.
  - intros Hall (d & c & Hd & Hf & Hrk & Hpass & Hrow).
    rewrite (limit_all _ _ Hall). unfold order_by_rank.
    rewrite merge_sort_Permutation. apply select_rows_iff.
    exists d, c. eauto 6 using passes_where_of.
Qed.

Lemma search_rows_exact_witness :
  let args := SearchArgs "jwt" None (Some "plans") None false 20 false false true in
  let r := Row "/arch/proj/main/20240101_120000/plans/x.md" "proj" "main"
               "20240101_120000" (Some "plans") "x.md" (Q2Qc (inject_Z (-1))) in
  search_rows Sample.engine (get_db Sample.indexed) args = Ok (Fetched [r]) ∧
  (arg_n args < 0 ∨ Z.of_nat (length [r]) < arg_n args) ∧
  (r ∈ [r] ->
   ∃ d c, d ∈ documents (get_db Sample.indexed) ∧
          (doc_id d, c) ∈ documents_fts (get_db Sample.indexed) ∧
          fts5_rank Sample.engine (arg_pattern args)
            (documents_fts (get_db Sample.indexed)) (doc_id d, c) = Some (r_rank r) ∧
          passes_given args d ∧ r = row_of d (r_rank r)).
Proof.
  assert (H : search_rows Sample.engine (get_db Sample.indexed)
                (SearchArgs "jwt" None (Some "plans") None false 20 false false true)
              = Ok (Fetched
                  [Row "/arch/proj/main/20240101_120000/plans/x.md" "proj" "main"
                       "20240101_120000" (Some "plans") "x.md" (Q2Qc (inject_Z (-1)))]))
    by (vm_compute; reflexivity).
  split; [exact H|]. split; [right; simpl; lia|].
  exact (proj1 (search_rows_exact _ _ _ _ _ H)).
Defined.

Lemma bind_NoDup_by_key {A B K} (key : A -> K) (g : B -> string)
    (inner : A -> list B) (l : list A) :
  NoDup (key <$> l) ->
  (∀ a, NoDup (g <$> inner a)) ->
  (∀ a a' x, x ∈ g <$> inner a -> x ∈ g <$> inner a' -> key a = key a') ->
  NoDup (g <$> (l ≫= inner)).
Proof.
  intros Hnd Hone Hkey. induction l as [|a l IH]; [apply NoDup_nil_2|].
  simpl in Hnd. apply NoDup_cons in Hnd as [Hnot Hnd].
  change (a :: l) with ([a] ++ l). rewrite bind_app, fmap_app.
  apply NoDup_app. split; [|split; [|by apply IH]].
  - simpl. rewrite app_nil_r. apply Hone.
  - intros x Hx (b & -> & Hb)%list_elem_of_fmap.
    simpl in Hx. rewrite app_nil_r in Hx.
    apply list_elem_of_bind in Hb as (a' & Hb & Ha').
    apply Hnot. rewrite (Hkey a a' (g b) Hx); [by apply list_elem_of_fmap_2|].
    by apply list_elem_of_fmap_2.
Qed.

Lemma select_rows_NoDup (E : fts5) (db : database) (q : string) (wh : list cond) :
  wf_db db -> NoDup (r_filepath <$> select_rows E db q wh).
Proof.
  intros [Hids Hfps Hrow _ _]. unfold select_rows.
  assert (Hinner : ∀ f : Z * string,
    ∀ fp, fp ∈ r_filepath <$>
            (d ← documents db;
             if bool_decide (doc_id d = f.1) then
               match fts5_rank E q (documents_fts db) f with
               | Some rk => if forallb (holds d) wh then [row_of d rk] else []
               | None => []
               end
             else []) ->
          ∃ d, d ∈ documents db ∧ doc_id d = f.1 ∧ filepath d = fp).
  { intros f fp (r & -> & Hr)%list_elem_of_fmap.
    apply list_elem_of_bind in Hr as (d & Hr & Hd).
    case_bool_decide as Hid; [|by apply elem_of_nil in Hr].
    destruct (fts5_rank E q (documents_fts db) f); [|by apply elem_of_nil in Hr].
    destruct (forallb (holds d) wh); [|by apply elem_of_nil in Hr].
    apply list_elem_of_singleton in Hr as ->. by exists d. }
  assert (Hone : ∀ f : Z * string,
    NoDup (r_filepath <$>
            (d ← documents db;
             if bool_decide (doc_id d = f.1) then
               match fts5_rank E q (documents_fts db) f with
               | Some rk => if forallb (holds d) wh then [row_of d rk] else []
               | None => []
               end
             else []))).
  { intros f. clear Hinner Hrow Hids. revert Hfps.
    generalize (documents db) at 1 2 as docs.
    induction docs as [|d docs IH]; intros Hnd; [apply NoDup_nil_2|].
    simpl in Hnd. apply NoDup_cons in Hnd as [Hnot Hnd].
    change (d :: docs) with ([d] ++ docs). rewrite bind_app, fmap_app.
    apply NoDup_app. split; [|split; [|by apply IH]].
    - simpl. rewrite app_nil_r. case_bool_decide; [|apply NoDup_nil_2].
      destruct (fts5_rank E q (documents_fts db) f); [|apply NoDup_nil_2].
      destruct (forallb (holds d) wh); [apply NoDup_singleton|apply NoDup_nil_2].
    - intros fp Hfp Hfp'.
      assert (fp = filepath d) as ->.
      { simpl in Hfp. rewrite app_nil_r in Hfp.
        destruct (bool_decide (doc_id d = f.1)); [|by apply elem_of_nil in Hfp].
        destruct (fts5_rank E q (documents_fts db) f); [|by apply elem_of_nil in Hfp].
        destruct (forallb (holds d) wh); [|by apply elem_of_nil in Hfp].
        by apply list_elem_of_singleton in Hfp. }
      apply Hnot. apply list_elem_of_fmap in Hfp' as (r & Hfp' & Hr).
      apply list_elem_of_bind in Hr as (d' & Hr & Hd').
      destruct (bool_decide (doc_id d' = f.1)); [|by apply elem_of_nil in Hr].
      destruct (fts5_rank E q (documents_fts db) f); [|by apply elem_of_nil in Hr].
      destruct (forallb (holds d') wh); [|by apply elem_of_nil in Hr].
      apply list_elem_of_singleton in Hr as ->. simpl in Hfp'.
      rewrite Hfp'. by apply list_elem_of_fmap_2. }
  apply (bind_NoDup_by_key fst); [done|exact Hone|].
  intros f f' fp (d & Hd & Hid & Hfp)%Hinner (d' & Hd' & Hid' & Hfp')%Hinner.
  assert (d = d') as <-.
  { eapply (NoDup_fmap_eq filepath); [done..|congruence]. }
  congruence.
Qed.

(** X7. On a well-formed index no document is returned twice: the file
    paths of the rows of a search are pairwise different. *)
Theorem search_rows_distinct (E : fts5) (db : database) (args : search_args)
    (rows : list row) :
  wf_db db ->
  search_rows E db args = Ok (Fetched rows) ->
  NoDup (r_filepath <$> rows).
Proof.
  intros Hwf H. apply search_rows_fetched in H as ->.
  apply (sublist_NoDup _ (r_filepath <$> order_by_rank
           (select_rows E db (arg_pattern args) (where_of args)))).
  - unfold order_by_rank. rewrite merge_sort_Permutation. by apply select_rows_NoDup.
  - apply fmap_sublist. unfold limit. case_bool_decide; [done|apply sublist_take].
Qed.

Lemma wf_db_sample : wf_db (get_db Sample.indexed).
Proof.
  split.
  - apply (bool_decide_unpack _). vm_compute. exact I.
  - apply (bool_decide_unpack _). vm_compute. exact I.
  - apply (bool_decide_unpack _). vm_compute. exact I.
  - apply Forall_forall. apply (bool_decide_unpack _). vm_compute. exact I.
  - apply Forall_forall. apply (bool_decide_unpack _). vm_compute. exact I.
Defined.

Lemma search_rows_distinct_witness :
  ∃ rows,
    wf_db (get_db Sample.indexed) ∧
    search_rows Sample.engine (get_db Sample.indexed) (Sample.args "jwt")
      = Ok (Fetched rows) ∧
    NoDup (r_filepath <$> rows).
Proof.
  eexists. split; [exact wf_db_sample|].
  assert (H : search_rows Sample.engine (get_db Sample.indexed) (Sample.args "jwt")
              = Ok (Fetched
                  [Row "/arch/proj/main/20240202_101010/old.md" "proj" "main"
                       "20240202_101010" (Some "root") "old.md" (Q2Qc (inject_Z (-2)));
                   Row "/arch/proj/main/20240101_120000/plans/x.md" "proj" "main"
                       "20240101_120000" (Some "plans") "x.md" (Q2Qc (inject_Z (-1)));
                   Row "/arch/proj/main/20240101_120000/research/y.md" "proj" "main"
                       "20240101_120000" (Some "research") "y.md"
                       (Q2Qc (inject_Z (-1)))]))
    by (vm_compute; reflexivity).
  split; [exact H|].
  exact (search_rows_distinct _ _ _ _ wf_db_sample H).
Defined.

(** X8. Raising the limit only appends results: with the other arguments
    unchanged, the rows returned under a limit [n] that is not negative are
    the first rows of those returned under a larger limit, and of those
    returned under a negative limit, which is no limit. *)
Theorem search_rows_limit_prefix (E : fts5) (db : database) (args : search_args)
    (n m : Z) (rows_n rows_m : list row) :
  0 <= n -> n <= m ∨ m < 0 ->
  search_rows E db (with_limit args n) = Ok (Fetched rows_n) ->
  search_rows E db (with_limit args m) = Ok (Fetched rows_m) ->
  rows_n `prefix_of` rows_m.
Proof.
  intros Hn Hm H1 H2.
  apply search_rows_fetched in H1 as ->. apply search_rows_fetched in H2 as ->.
  simpl. unfold where_of. simpl. fold (where_of args).
  generalize (order_by_rank (select_rows E db (arg_pattern args) (where_of args))) as l.
  intros l. unfold limit. rewrite (bool_decide_eq_false_2 (n < 0)) by lia.
  case_bool_decide; [apply prefix_take|].
  replace (Z.to_nat n) with (Z.to_nat n `min` Z.to_nat m)%nat by lia.
  rewrite <-take_take. apply prefix_take.
Qed.

Lemma search_rows_limit_prefix_witness :
  let r1 := Row "/arch/proj/main/20240202_101010/old.md" "proj" "main"
                "20240202_101010" (Some "root") "old.md" (Q2Qc (inject_Z (-2))) in
  let r2 := Row "/arch/proj/main/20240101_120000/plans/x.md" "proj" "main"
                "20240101_120000" (Some "plans") "x.md" (Q2Qc (inject_Z (-1))) in
  (0 <= 1 ∧ (1 <= 2 ∨ 2 < 0) ∧
   search_rows Sample.engine (get_db Sample.indexed)
     (with_limit (Sample.args "jwt") 1) = Ok (Fetched [r1]) ∧
   search_rows Sample.engine (get_db Sample.indexed)
     (with_limit (Sample.args "jwt") 2) = Ok (Fetched [r1; r2])) ∧
  [r1] `prefix_of` [r1; r2].
Proof.
  assert (H1 : search_rows Sample.engine (get_db Sample.indexed)
                 (with_limit (Sample.args "jwt") 1)
               = Ok (Fetched
                   [Row "/arch/proj/main/20240202_101010/old.md" "proj" "main"
                        "20240202_101010" (Some "root") "old.md"
                        (Q2Qc (inject_Z (-2)))]))
    by (vm_compute; reflexivity).
  assert (H2 : search_rows Sample.engine (get_db Sample.indexed)
                 (with_limit (Sample.args "jwt") 2)
               = Ok (Fetched
                   [Row "/arch/proj/main/20240202_101010/old.md" "proj" "main"
                        "20240202_101010" (Some "root") "old.md" (Q2Qc (inject_Z (-2)));
                    Row "/arch/proj/main/20240101_120000/plans/x.md" "proj" "main"
                        "20240101_120000" (Some "plans") "x.md"
                        (Q2Qc (inject_Z (-1)))]))
    by (vm_compute; reflexivity).
  split; [split; [lia|split; [left; lia|split; [exact H1|exact H2]]]|].
  exact (search_rows_limit_prefix _ _ _ 1 2 _ _ ltac:(lia) ltac:(left; lia) H1 H2).
Defined.

(** ** How a search ends *)





(** ** Locating the match in a file *)

Lemma first_match_spec (terms : list string) (k : Z) (lines : list string) :
  let hit line := existsb (fun t => contains (lower t) (lower line)) terms in
  match first_match terms k lines with
  | Some i =>
      ∃ j line, i = k + Z.of_nat j ∧ lines !! j = Some line ∧ hit line = true ∧
        ∀ j' line', (j' < j)%nat -> lines !! j' = Some line' -> hit line' = false
  | None => ∀ line, line ∈ lines -> hit line = false
  end.
Proof.
  cbv zeta. revert k. induction lines as [|l rest IH]; intros k; simpl.
  - by intros line ?%elem_of_nil.
  - destruct (existsb _ terms) eqn:Hhit.
    + exists 0%nat, l. repeat split; [lia|done|]. intros j' line' Hlt. lia.
    + specialize (IH (k + 1)). destruct (first_match terms (k + 1) rest) as [i|].
      * destruct IH as (j & line & -> & Hj & Hline & Hbefore).
        exists (S j), line. repeat split; [lia|done..|].
        intros [|j'] line' Hlt Hj'; simpl in Hj'.
        -- by injection Hj' as <-.
        -- eapply Hbefore; [|done]. lia.
      * intros line [->|Hin]%elem_of_cons; [done|by apply IH].
Qed.

(** X11. When the source file of a result can be read, the line number
    that [_find_match_line] reports is that of the first line that contains
    a term of the query, counted from 1; it is 1 when no line contains
    one. *)
Theorem find_match_line_first (fs : filesystem) (fp pattern text : string) :
  fs_read_text fs (parse_parts fp) = Some text ->
  let lines := splitlines text in
  let i := _find_match_line fs fp pattern in
  (∃ j line, i = Z.of_nat j + 1 ∧ lines !! j = Some line ∧
     line_matches pattern line = true ∧
     ∀ j' line', (j' < j)%nat -> lines !! j' = Some line' ->
       line_matches pattern line' = false) ∨
  (i = 1 ∧ ∀ line, line ∈ lines -> line_matches pattern line = false).
Proof.
  intros Hread. cbv zeta. unfold _find_match_line. rewrite Hread.
  pose proof (first_match_spec (split (remove_char DQUOTE pattern)) 1 (splitlines text))
    as H. cbv zeta in H.
  destruct (first_match _ 1 (splitlines text)) as [i|].
  - left. destruct H as (j & line & -> & Hj & Hline & Hbefore).
    exists j, line. repeat split; [lia|done..].
  - right. by split.
Qed.

Lemma find_match_line_first_witness :
  let fp := "/arch/proj/main/20240202_101010/old.md" in
  let text := "first line" +:+ String LF "the jwt jwt note" in
  fs_read_text Sample.fs (parse_parts fp) = Some text ∧
  _find_match_line Sample.fs fp "JWT" = 2 ∧
  let lines := splitlines text in
  let i := _find_match_line Sample.fs fp "JWT" in
  (∃ j line, i = Z.of_nat j + 1 ∧ lines !! j = Some line ∧
     line_matches "JWT" line = true ∧
     ∀ j' line', (j' < j)%nat -> lines !! j' = Some line' ->
       line_matches "JWT" line' = false) ∨
  (i = 1 ∧ ∀ line, line ∈ lines -> line_matches "JWT" line = false).
Proof.
  split; [reflexivity|]. split; [reflexivity|].
  apply (find_match_line_first Sample.fs "/arch/proj/main/20240202_101010/old.md" "JWT").
  reflexivity.
Defined.

Lemma snippet_line_spec (pattern : string) (k : nat) (lines : list string) :
  match snippet_line pattern k lines with
  | Some i =>
      ∃ j line, i = (k + j)%nat ∧ lines !! j = Some line ∧
        line_has_pattern pattern line = true ∧
        ∀ j' line', (j' < j)%nat -> lines !! j' = Some line' ->
          line_has_pattern pattern line' = false
  | None => ∀ line, line ∈ lines -> line_has_pattern pattern line = false
  end.
Proof.
  revert k. induction lines as [|l rest IH]; intros k; simpl.
  - by intros line ?%elem_of_nil.
  - fold (line_has_pattern pattern l). destruct (line_has_pattern pattern l) eqn:Hhit.
    + exists 0%nat, l. repeat split; [lia|done|]. intros j' line' Hlt. lia.
    + specialize (IH (S k)). destruct (snippet_line pattern (S k) rest) as [i|].
      * destruct IH as (j & line & -> & Hj & Hline & Hbefore).
        exists (S j), line. repeat split; [lia|done..|].
        intros [|j'] line' Hlt Hj'; simpl in Hj'.
        -- by injection Hj' as <-.
        -- eapply Hbefore; [|done]. lia.
      * intros line [->|Hin]%elem_of_cons; [done|by apply IH].
Qed.

(** X12. [get_snippet] returns nothing when the file cannot be read or no
    line contains the query text, letter case ignored. Otherwise the
    snippet is made of at most four consecutive lines of the file, joined
    by line feeds: the first line that contains the query text, the line
    before it and the two lines after it, as far as they exist. *)
Theorem get_snippet_spec (fs : filesystem) (fp pattern : string) :
  match get_snippet fs fp pattern with
  | Some s =>
      ∃ text j line,
        fs_read_text fs (parse_parts fp) = Some text ∧
        splitlines text !! j = Some line ∧
        line_has_pattern pattern line = true ∧
        (∀ j' line', (j' < j)%nat -> splitlines text !! j' = Some line' ->
           line_has_pattern pattern line' = false) ∧
        let shown := drop (j - 1) (take (j + 3) (splitlines text)) in
        s = join (String LF EmptyString) shown ∧
        (length shown <= 4)%nat ∧ line ∈ shown
  | None =>
      fs_read_text fs (parse_parts fp) = None ∨
      ∃ text, fs_read_text fs (parse_parts fp) = Some text ∧
        ∀ line, line ∈ splitlines text -> line_has_pattern pattern line = false
  end.
Proof.
  unfold get_snippet. destruct (fs_read_text fs (parse_parts fp)) as [text|]; [|by left].
  pose proof (snippet_line_spec pattern 1 (splitlines text)) as H.
  destruct (snippet_line pattern 1 (splitlines text)) as [i|].
  - destruct H as (j & line & -> & Hj & Hline & Hbefore).
    exists text, j, line.
    replace (1 + j - 2)%nat with (j - 1)%nat by lia.
    replace (1 + j + 2)%nat with (j + 3)%nat by lia.
    repeat split; [done..| |].
    + rewrite length_drop, length_take. lia.
    + apply list_elem_of_lookup. exists (j - (j - 1))%nat.
      rewrite lookup_drop, lookup_take_lt by lia.
      replace (j - 1 + (j - (j - 1)))%nat with j by lia. done.
  - right. by exists text.
Qed.

(** ** Paths and their strings *)

Lemma split_on_aux_no_sep (sep : ascii) (cur l : list ascii) :
  sep ∉ l -> split_on_aux sep cur l = [of_chars (reverse cur ++ l)].
Proof.
  revert cur. induction l as [|c l IH]; intros cur Hnot; simpl.
  - by rewrite app_nil_r.
  - apply not_elem_of_cons in Hnot as [Hc Hl].
    rewrite decide_False by done. rewrite IH by done.
    by rewrite reverse_cons, <-app_assoc.
Qed.

Lemma split_on_aux_sep (sep : ascii) (cur l rest : list ascii) :
  sep ∉ l ->
  split_on_aux sep cur (l ++ sep :: rest)
    = of_chars (reverse cur ++ l) :: split_on_aux sep [] rest.
Proof.
  revert cur. induction l as [|c l IH]; intros cur Hnot; simpl.
  - rewrite decide_True by done. by rewrite app_nil_r.
  - apply not_elem_of_cons in Hnot as [Hc Hl].
    rewrite decide_False by done. rewrite IH by done.
    by rewrite reverse_cons, <-app_assoc.
Qed.

Lemma split_on_join (segs : list string) :
  segs ≠ [] -> Forall (fun s => "/"%char ∉ chars s) segs ->
  split_on "/"%char (join "/" segs) = segs.
Proof.
  intros Hne Hall. unfold split_on.
  induction Hall as [|x segs Hx Hall IH]; [done|].
  destruct segs as [|y tl].
  - simpl. rewrite split_on_aux_no_sep by done. simpl. by rewrite of_chars_chars.
  - change (join "/" (x :: y :: tl)) with (x +:+ "/" +:+ join "/" (y :: tl)).
    rewrite !chars_app. simpl (chars "/").
    change (chars x ++ ["/"%char] ++ chars (join "/" (y :: tl)))
      with (chars x ++ "/"%char :: chars (join "/" (y :: tl))).
    rewrite split_on_aux_sep by done. simpl. rewrite of_chars_chars.
    f_equal. by apply IH.
Qed.

Lemma plain_segment_not_root (s : string) : plain_segment s -> is_root s = false.
Proof.
  intros (_ & _ & Hslash). unfold is_root.
  rewrite !bool_decide_eq_false_2; [done|intros ->..]; apply Hslash; simpl;
    apply elem_of_cons; by left.
Qed.

Lemma filter_plain_segments (segs : list string) :
  Forall plain_segment segs -> filter (fun x => x ≠ "" ∧ x ≠ ".") segs = segs.
Proof.
  induction 1 as [|x segs (H1 & H2 & _) _ IH]; [done|].
  rewrite filter_cons, decide_True by done. by f_equal.
Qed.

Lemma join_plain_first (segs : list string) :
  Forall plain_segment segs ->
  match chars (join "/" segs) with
  | c :: _ => c ≠ "/"%char
  | [] => True
  end.
Proof.
  intros Hall. destruct Hall as [|x segs (Hne & _ & Hslash) _]; [done|].
  assert (Hx : match chars x with c :: _ => c ≠ "/"%char | [] => False end).
  { destruct x as [|c x]; [done|]. simpl. intros ->. apply Hslash. simpl.
    apply elem_of_cons. by left. }
  destruct segs as [|y tl]; simpl.
  - by destruct (chars x).
  - rewrite chars_app. by destruct (chars x).
Qed.

Lemma parse_parts_join (segs : list string) :
  Forall plain_segment segs -> parse_parts (join "/" segs) = segs.
Proof.
  intros Hall. unfold parse_parts.
  assert (Hroot : splitroot (join "/" segs) = None).
  { unfold splitroot. pose proof (join_plain_first segs Hall) as H.
    destruct (chars (join "/" segs)) as [|c l]; [done|].
    destruct (decide (c = "/"%char)) as [->|Hc]; [done|].
    destruct c as [[] [] [] [] [] [] [] []]; try done. }
  rewrite Hroot. destruct segs as [|x segs]; [done|].
  rewrite split_on_join; [by apply filter_plain_segments|done|].
  eapply Forall_impl; [exact Hall|]. by intros s (_ & _ & ?).
Qed.

Lemma parse_parts_rooted (r : string) (tail : list string) :
  is_root r = true -> Forall plain_segment tail ->
  parse_parts (r +:+ join "/" tail) = r :: tail.
Proof.
  intros Hr Hall. unfold parse_parts, split_on.
  pose proof (join_plain_first tail Hall) as Hfirst.
  assert (Htail : filter (fun x => x ≠ "" ∧ x ≠ ".")
                    (split_on_aux "/"%char [] (chars (join "/" tail))) = tail).
  { destruct tail as [|x tl]; [done|].
    fold (split_on "/"%char (join "/" (x :: tl))).
    rewrite split_on_join; [by apply filter_plain_segments|done|].
    eapply Forall_impl; [exact Hall|]. by intros s (_ & _ & ?). }
  unfold is_root in Hr. apply orb_true_iff in Hr as [->%bool_decide_eq_true| ->%bool_decide_eq_true].
  - unfold splitroot. rewrite chars_app. simpl.
    rewrite filter_cons, decide_False by tauto. rewrite Htail.
    destruct (chars (join "/" tail)) as [|c l]; [done|].
    destruct (decide (c = "/"%char)) as [->|Hc]; [done|].
    destruct c as [[] [] [] [] [] [] [] []]; try done.
  - unfold splitroot. rewrite chars_app. simpl.
    rewrite !filter_cons, !decide_False by tauto. rewrite Htail.
    destruct (chars (join "/" tail)) as [|c l]; [done|].
    destruct (decide (c = "/"%char)) as [->|Hc]; [done|].
    destruct c as [[] [] [] [] [] [] [] []]; try done.
Qed.

Lemma path_str_parse (p : Path) :
  well_formed_path p -> parse_parts (path_str p) = p.
Proof.
  destruct p as [|r tail]; [done|]. intros [[Hr|Hr] Hall]; unfold path_str.
  - rewrite Hr. by apply parse_parts_rooted.
  - rewrite (plain_segment_not_root r Hr). apply parse_parts_join. by constructor.
Qed.

Lemma path_str_inj (p q : Path) :
  well_formed_path p -> well_formed_path q -> path_str p = path_str q -> p = q.
Proof.
  intros Hp Hq Heq. rewrite <-(path_str_parse p Hp), <-(path_str_parse q Hq).
  by rewrite Heq.
Qed.

(** X13. A well-formed path and its string determine each other: parsing
    the string of a path gives the path back, [Path(str(p)) == p], so two
    well-formed paths with the same string are the same path. The
    [filepath] that the indexer stores therefore names, when the presenter
    parses it again, the file that was read: the line that
    [_find_match_line] reports for the stored string depends on nothing but
    what reading that file gives. *)
Theorem parse_parts_path_str (fs : filesystem) (p : Path) (pattern : string) :
  well_formed_path p ->
  parse_parts (path_str p) = p ∧
  (∀ q, well_formed_path q -> path_str q = path_str p -> q = p) ∧
  (∀ fs', fs_read_text fs' p = fs_read_text fs p ->
     _find_match_line fs' (path_str p) pattern = _find_match_line fs (path_str p) pattern).
Proof.
  intros Hp. split; [by apply path_str_parse|]. split.
  - intros q Hq Heq. by apply path_str_inj.
  - intros fs' Hread. unfold _find_match_line. by rewrite path_str_parse, Hread.
Qed.

Lemma parse_parts_path_str_witness :
  well_formed_path Sample.locked_md ∧
  parse_parts (path_str Sample.locked_md) = Sample.locked_md ∧
  (∀ q, well_formed_path q -> path_str q = path_str Sample.locked_md ->
     q = Sample.locked_md) ∧
  (∀ fs', fs_read_text fs' Sample.locked_md = fs_read_text Sample.fs Sample.locked_md ->
     _find_match_line fs' (path_str Sample.locked_md) "jwt"
     = _find_match_line Sample.fs (path_str Sample.locked_md) "jwt").
Proof.
  assert (H : well_formed_path Sample.locked_md).
  { split; [by left|].
    repeat (apply Forall_cons; split;
            [split; [done|split; [done|apply (bool_decide_unpack _); vm_compute; exact I]]|]).
    constructor. }
  split; [exact H|]. exact (parse_parts_path_str Sample.fs Sample.locked_md "jwt" H).
Defined.

Lemma joinpath_plain (p : Path) (s : string) :
  plain_segment s -> joinpath p s = p ++ [s].
Proof.
  intros Hs. unfold joinpath.
  assert (Hparse : parse_parts s = [s]).
  { change s with (join "/" [s]) at 1. apply parse_parts_join. by constructor. }
  rewrite Hparse. simpl. by rewrite (plain_segment_not_root s Hs).
Qed.

(** X14. For a file that the classifier accepts and whose relative path is
    made of plain segments, the directory whose membership in the Latest
    Set decides [is_latest] is the file's own timestamp directory: the
    archive root followed by the first three segments of the relative
    path. *)
Theorem ts_dir_of_accepted (archive_base rel : Path) (f : facets) :
  Forall plain_segment rel ->
  parse_archive_path (archive_base ++ rel) archive_base = Ok (Some f) ->
  ts_dir_of archive_base f = archive_base ++ take 3 rel ∧
  ts_dir_of archive_base f `prefix_of` archive_base ++ rel.
Proof.
  intros Hall (p & b & ts & p3 & rest & -> & _ & ->)%parse_archive_path_accepts.
  apply Forall_cons in Hall as [Hp Hall]. apply Forall_cons in Hall as [Hb Hall].
  apply Forall_cons in Hall as [Hts _].
  assert (Heq : ts_dir_of archive_base
                  (Facets p b ts (Some (if bool_decide (p3 ∈ VALID_TYPES)
                                        then p3 else "root")))
                = archive_base ++ [p; b; ts]).
  { unfold ts_dir_of. simpl. rewrite !joinpath_plain by done.
    by rewrite <-!app_assoc. }
  split; [exact Heq|]. rewrite Heq. apply prefix_app.
  by exists (p3 :: rest).
Qed.

Lemma ts_dir_of_accepted_witness :
  let rel := ["proj"; "main"; Sample.ts1; "plans"; "x.md"] in
  let f := Facets "proj" "main" Sample.ts1 (Some "plans") in
  (Forall plain_segment rel ∧
   parse_archive_path (Sample.base ++ rel) Sample.base = Ok (Some f)) ∧
  ts_dir_of Sample.base f = Sample.base ++ take 3 rel ∧
  ts_dir_of Sample.base f `prefix_of` Sample.base ++ rel.
Proof.
  assert (H1 : Forall plain_segment ["proj"; "main"; Sample.ts1; "plans"; "x.md"]).
  { repeat (apply Forall_cons; split;
            [split; [done|split; [done|apply (bool_decide_unpack _); vm_compute; exact I]]|]).
    constructor. }
  assert (H2 : parse_archive_path
                 (Sample.base ++ ["proj"; "main"; Sample.ts1; "plans"; "x.md"]) Sample.base
               = Ok (Some (Facets "proj" "main" Sample.ts1 (Some "plans"))))
    by reflexivity.
  split; [by split|].
  exact (ts_dir_of_accepted Sample.base _ _ H1 H2).
Defined.

Lemma relative_to_raise (p base : Path) (e : exn) :
  relative_to p base = Raise e -> e = ValueError ∧ ∀ rel, p ≠ base ++ rel.
Proof.
  revert p. induction base as [|b base IH]; intros p H; simpl in H; [done|].
  destruct p as [|x p]; [injection H as <-; by split|].
  destruct (decide (x = b)) as [->|Hne].
  - apply IH in H as [-> Hrel]. split; [done|]. intros rel [= ->]. by eapply Hrel.
  - injection H as <-. split; [done|]. by intros rel [= -> _].
Qed.

(** X15. The three outcomes of the classifier. It raises [ValueError]
    exactly when the file is not below the archive root. It returns nothing
    when the relative path has fewer than four segments or [TIMESTAMP_RE]
    does not match the third. Otherwise it returns the first three segments
    as project, branch and timestamp, and the timestamp is a string of the
    pattern, eight digits, an underscore and six digits, possibly followed
    by one line feed. *)
Theorem parse_archive_path_outcome (fp archive_base : Path) :
  match parse_archive_path fp archive_base with
  | Raise e => e = ValueError ∧ ∀ rel, fp ≠ archive_base ++ rel
  | Ok None =>
      ∃ rel, fp = archive_base ++ rel ∧
        ((length rel < 4)%nat ∨
         ∃ ts, rel !! 2%nat = Some ts ∧ TIMESTAMP_RE_match ts = false)
  | Ok (Some f) =>
      ∃ rel, fp = archive_base ++ rel ∧ (4 <= length rel)%nat ∧
        rel !! 0%nat = Some (f_project f) ∧ rel !! 1%nat = Some (f_branch f) ∧
        rel !! 2%nat = Some (f_timestamp f) ∧
        ∃ t, timestamp_fullmatch t = true ∧
             (f_timestamp f = t ∨ f_timestamp f = t +:+ String LF EmptyString)
  end.
Proof.
  destruct (relative_to fp archive_base) as [rel|e] eqn:Hrel.
  - rewrite (parse_archive_path_parts _ _ rel Hrel).
    apply relative_to_inv in Hrel as ->.
    destruct rel as [|p [|b [|ts [|p3 rest]]]];
      try (eexists; split; [done|]; left; simpl; lia).
    destruct (TIMESTAMP_RE_match ts) eqn:Hts.
    + eexists. split; [done|]. simpl. repeat split; [lia|].
      apply TIMESTAMP_RE_match_spec in Hts as [Hts|(t & -> & Ht)].
      * exists ts. by split; [|left].
      * exists t. by split; [|right].
    + eexists. split; [done|]. right. by exists ts.
  - unfold parse_archive_path. rewrite Hrel. simpl. by eapply relative_to_raise.
Qed.

(** ** Statistics *)

Lemma cnt_of_bump {K} `{EqDecision K} (k k' : K) (groups : list (K * Z)) :
  cnt_of k' (bump k groups) = cnt_of k' groups + (if decide (k = k') then 1 else 0).
Proof.
  induction groups as [|[k0 c] rest IH]; simpl.
  - destruct (decide (k = k')); lia.
  - destruct (decide (k0 = k)) as [->|Hne]; simpl.
    + destruct (decide (k = k')); lia.
    + rewrite IH. lia.
Qed.

Lemma bump_keys {K} `{EqDecision K} (k : K) (groups : list (K * Z)) :
  fst <$> bump k groups
  = if bool_decide (k ∈ fst <$> groups) then fst <$> groups else (fst <$> groups) ++ [k].
Proof.
  induction groups as [|[k0 c] rest IH]; [done|]. cbn [bump].
  destruct (decide (k0 = k)) as [->|Hne]; rewrite !fmap_cons; cbn [fst].
  - rewrite bool_decide_eq_true_2; [done|]. apply elem_of_cons. by left.
  - rewrite IH. case_bool_decide as Hin.
    + rewrite bool_decide_eq_true_2; [done|]. apply elem_of_cons. by right.
    + rewrite bool_decide_eq_false_2; [done|].
      intros [?|?]%elem_of_cons; [congruence|done].
Qed.

Lemma bump_NoDup {K} `{EqDecision K} (k : K) (groups : list (K * Z)) :
  NoDup (fst <$> groups) -> NoDup (fst <$> bump k groups).
Proof.
  intros Hnd. rewrite bump_keys. case_bool_decide as Hin; [done|].
  apply NoDup_app. repeat split; [done| |apply NoDup_singleton].
  by intros x Hx ->%list_elem_of_singleton.
Qed.

Lemma bump_sum {K} `{EqDecision K} (k : K) (groups : list (K * Z)) :
  foldr Z.add 0 (snd <$> bump k groups) = foldr Z.add 0 (snd <$> groups) + 1.
Proof.
  induction groups as [|[k0 c] rest IH]; [done|]. cbn [bump].
  destruct (decide (k0 = k)); rewrite !fmap_cons; cbn [foldr snd]; [lia|].
  rewrite IH. lia.
Qed.

Lemma bump_positive {K} `{EqDecision K} (k : K) (groups : list (K * Z)) :
  Forall (fun g => 1 <= g.2) groups -> Forall (fun g => 1 <= g.2) (bump k groups).
Proof.
  induction 1 as [|[k0 c] rest Hc Hrest IH]; simpl.
  - by repeat constructor.
  - destruct (decide (k0 = k)); constructor; simpl in *; try done; lia.
Qed.

Lemma cnt_of_NoDup {K} `{EqDecision K} (k : K) (c : Z) (groups : list (K * Z)) :
  NoDup (fst <$> groups) -> (k, c) ∈ groups -> cnt_of k groups = c.
Proof.
  induction groups as [|[k0 c0] rest IH]; simpl; [by intros _ ?%elem_of_nil|].
  intros [Hnot Hnd]%NoDup_cons [[= <- <-]|Hin]%elem_of_cons.
  - rewrite decide_True by done.
    assert (cnt_of k rest = 0) as ->; [|lia].
    clear IH Hnd. induction rest as [|[k1 c1] rest IH]; simpl; [done|].
    apply not_elem_of_cons in Hnot as [Hne Hnot]. simpl in Hne.
    rewrite decide_False by done. by rewrite IH.
  - rewrite decide_False.
    + by rewrite IH.
    + intros ->. apply Hnot. by apply (list_elem_of_fmap_2 fst _ (k, c)).
Qed.

Lemma group_count_spec {K} `{EqDecision K} (keys : list K) :
  NoDup (fst <$> group_count keys) ∧
  Forall (fun g => 1 <= g.2) (group_count keys) ∧
  foldr Z.add 0 (snd <$> group_count keys) = Z.of_nat (length keys) ∧
  ∀ k, cnt_of k (group_count keys) = Z.of_nat (length (filter (fun x => x = k) keys)).
Proof.
  unfold group_count.
  assert (Hgen : ∀ groups : list (K * Z),
    NoDup (fst <$> groups) -> Forall (fun g => 1 <= g.2) groups ->
    NoDup (fst <$> foldl (fun groups k => bump k groups) groups keys) ∧
    Forall (fun g => 1 <= g.2) (foldl (fun groups k => bump k groups) groups keys) ∧
    foldr Z.add 0 (snd <$> foldl (fun groups k => bump k groups) groups keys)
      = foldr Z.add 0 (snd <$> groups) + Z.of_nat (length keys) ∧
    ∀ k, cnt_of k (foldl (fun groups k => bump k groups) groups keys)
         = cnt_of k groups + Z.of_nat (length (filter (fun x => x = k) keys))).
  { induction keys as [|k0 keys IH]; intros groups Hnd Hpos; simpl.
    - repeat split; [done..|lia|intros; lia].
    - destruct (IH (bump k0 groups)) as (H1 & H2 & H3 & H4);
        [by apply bump_NoDup|by apply bump_positive|].
      repeat split; [done..| |].
      + rewrite H3, bump_sum. lia.
      + intros k. rewrite H4, cnt_of_bump, filter_cons.
        destruct (decide (k0 = k)); simpl; lia. }
  destruct (Hgen []) as (H1 & H2 & H3 & H4); [apply NoDup_nil_2|constructor|].
  split; [done|]. split; [done|]. split; [rewrite H3; simpl; lia|].
  intros k. rewrite H4. simpl. lia.
Qed.

Lemma sum_snd_Permutation {K} (l l' : list (K * Z)) :
  l ≡ₚ l' -> foldr Z.add 0 (snd <$> l) = foldr Z.add 0 (snd <$> l').
Proof. induction 1; rewrite ?fmap_cons; cbn [foldr]; [done|lia..]. Qed.

Global Instance cnt_ge_trans {K} : Transitive (@cnt_ge K).
Proof. intros a b c. unfold cnt_ge. lia. Qed.

Global Instance cnt_ge_total {K} : Total (@cnt_ge K).
Proof. intros a b. unfold cnt_ge. lia. Qed.

Lemma order_by_cnt_desc_spec {K} `{EqDecision K} (keys : list K) :
  let groups := order_by_cnt_desc (group_count keys) in
  StronglySorted cnt_ge groups ∧
  NoDup (fst <$> groups) ∧
  foldr Z.add 0 (snd <$> groups) = Z.of_nat (length keys) ∧
  ∀ k c, (k, c) ∈ groups <->
         1 <= c ∧ c = Z.of_nat (length (filter (fun x => x = k) keys)).
Proof.
  cbv zeta. unfold order_by_cnt_desc.
  destruct (group_count_spec keys) as (Hnd & Hpos & Hsum & Hcnt).
  split; [apply StronglySorted_merge_sort; apply _|].
  split; [by rewrite merge_sort_Permutation|].
  split; [by rewrite (sum_snd_Permutation _ _ (merge_sort_Permutation _ _))|].
  intros k c. rewrite merge_sort_Permutation. split.
  - intros Hin. rewrite Forall_forall in Hpos. split; [by apply (Hpos (k, c))|].
    by rewrite <-Hcnt, (cnt_of_NoDup k c).
  - intros [Hc ->]. rewrite <-Hcnt in Hc |- *.
    clear Hsum Hcnt Hpos. revert Hc Hnd.
    generalize (group_count keys) as g.
    induction g as [|[k0 c0] rest IH]; simpl; [lia|].
    intros Hc [Hnot Hnd]%NoDup_cons. destruct (decide (k0 = k)) as [->|Hne].
    + assert (cnt_of k rest = 0) as ->.
      { clear -Hnot. induction rest as [|[k1 c1] rest IH]; simpl; [done|].
        apply not_elem_of_cons in Hnot as [Hne Hnot]. simpl in Hne.
        rewrite decide_False by done. by rewrite IH. }
      rewrite Z.add_0_r. apply elem_of_cons. by left.
    + apply elem_of_cons. right. rewrite Z.add_0_l in Hc |- *. by apply IH.
Qed.

(** X16. What [do_stats] counts: each project that has documents is listed
    once, with the number of its documents, the most numerous first, and
    the numbers add up to the total; the same holds of the categories; and
    the number of latest documents is at most the total. *)
Theorem query_stats_spec (db : database) :
  let st := query_stats db in
  s_total st = Z.of_nat (length (documents db)) ∧
  0 <= s_latest st <= s_total st ∧
  (StronglySorted cnt_ge (s_by_project st) ∧ NoDup (fst <$> s_by_project st) ∧
   foldr Z.add 0 (snd <$> s_by_project st) = s_total st ∧
   ∀ p c, (p, c) ∈ s_by_project st <->
          1 <= c ∧ c = Z.of_nat (length (filter (fun d => project d = p) (documents db)))) ∧
  (StronglySorted cnt_ge (s_by_type st) ∧ NoDup (fst <$> s_by_type st) ∧
   foldr Z.add 0 (snd <$> s_by_type st) = s_total st ∧
   ∀ t c, (t, c) ∈ s_by_type st <->
          1 <= c ∧ c = Z.of_nat (length (filter (fun d => dir_type d = t) (documents db)))).
Proof.
  cbv zeta. unfold query_stats. simpl.
  assert (Hfilter : ∀ {K} `{EqDecision K} (f : document -> K) (k : K) (l : list document),
    length (filter (fun x => x = k) (f <$> l)) = length (filter (fun d => f d = k) l)).
  { intros K ? f k l. induction l as [|d l IH]; [done|].
    rewrite fmap_cons, !filter_cons. destruct (decide (f d = k)); simpl; by rewrite IH. }
  split; [done|]. split.
  { pose proof (length_filter (fun d => is_latest d = 1) (documents db)). lia. }
  split.
  - destruct (order_by_cnt_desc_spec (project <$> documents db)) as (H1 & H2 & H3 & H4).
    split; [done|]. split; [done|]. split; [by rewrite H3, length_fmap|].
    intros k c. by rewrite H4, Hfilter.
  - destruct (order_by_cnt_desc_spec (dir_type <$> documents db)) as (H1 & H2 & H3 & H4).
    split; [done|]. split; [done|]. split; [by rewrite H3, length_fmap|].
    intros k c. by rewrite H4, Hfilter.
Qed.

(** ** From the file to the search result *)

Lemma ingest_indexes_readable_files_aux (ARCHIVE_BASE : Path) (fs : filesystem)
    (now : string) (proj : option string) (file : option database)
    (o : outcome) (db' : database) (md_file : Path) (content : string) :
  do_ingest ARCHIVE_BASE fs now proj file = (Ok o, Some db') ->
  status o = 0 ->
  md_file ∈ rglob fs (scan_root_of ARCHIVE_BASE proj) glob_md ->
  candidate ARCHIVE_BASE md_file = true ->
  fs_read_text fs md_file = Some content ->
  ∃ st, db' = st_db st ∧
    ingest_loop fs ARCHIVE_BASE (resolve_latest_timestamps fs ARCHIVE_BASE) now
      (IngestState (cleared proj file) 0 0)
      (rglob fs (scan_root_of ARCHIVE_BASE proj) glob_md) = Ok st ∧
    ∃ d, d ∈ documents db' ∧ filepath d = path_str md_file.
Proof.
  unfold do_ingest. intros H Hst Hin Hcand Hread.
  destruct (fs_exists fs ARCHIVE_BASE); cbn [negb] in H;
    [|injection H as <- _; simpl in Hst; lia].
  match type of H with context [?b && negb ?c] => destruct (b && negb c) end;
    [injection H as <- _; simpl in Hst; lia|].
  destruct (ingest_loop _ _ _ _ _ _) as [st|e] eqn:Hloop; [|done].
  injection H as _ <-. exists st. split; [done|]. split; [done|].
  eapply ingest_loop_present in Hloop; [|done..].
  apply list_elem_of_fmap in Hloop as (d & Hfp & Hd). by exists d.
Qed.

Lemma ingest_file_content (fs : filesystem) (archive_base : Path)
    (latest_dirs : gset string) (now : string) (st st' : ingest_state) (md_file : Path)
    (d : document) :
  wf_db (st_db st) ->
  ingest_file fs archive_base latest_dirs now st md_file = Ok st' ->
  d ∈ documents (st_db st') ->
  d ∈ documents (st_db st) ∨
  (filepath d = path_str md_file ∧
   ∃ c, fs_read_text fs md_file = Some c ∧ (doc_id d, c) ∈ documents_fts (st_db st')).
Proof.
  intros Hwf H. unfold ingest_file in H.
  destruct (bool_decide (path_name md_file ∈ SKIP_FILES)); [injection H as <-; auto|].
  destruct (existsb _ SKIP_DIRS); [injection H as <-; auto|].
  destruct (parse_archive_path md_file archive_base) as [[f|]|e];
    simpl in H; [|injection H as <-; auto|done].
  destruct (fs_read_text fs md_file) as [content|]; [|injection H as <-; auto].
  unfold insert_document in H.
  destruct (decide (path_str md_file ∈ filepath <$> documents (st_db st))) as [Hfp|Hfp].
  { rewrite (bool_decide_eq_true_2 _ Hfp) in H. injection H as <-. auto. }
  rewrite (bool_decide_eq_false_2 _ Hfp) in H.
  unfold insert_fts in H. simpl in H.
  destruct Hwf as [_ _ _ Hfd _].
  assert (Hfree : next_rowid (documents (st_db st)) ∉ fst <$> documents_fts (st_db st)).
  { intros (r & Hid & Hr)%list_elem_of_fmap.
    apply Hfd, list_elem_of_fmap in Hr as (d0 & Hid0 & Hd0).
    apply next_rowid_fresh in Hd0. lia. }
  match type of H with context [bool_decide (?i ∈ fst <$> ?t)] =>
    rewrite (bool_decide_eq_false_2 (i ∈ fst <$> t)) in H by done end.
  injection H as <-. simpl.
  intros [Hd| ->%list_elem_of_singleton]%elem_of_app; [by left|]. right.
  split; [done|]. exists content. split; [done|]. simpl.
  apply elem_of_app. right. by apply list_elem_of_singleton.
Qed.

Lemma ingest_loop_content (fs : filesystem) (archive_base : Path)
    (latest_dirs : gset string) (now : string) (files : list Path)
    (st st' : ingest_state) (d : document) :
  wf_db (st_db st) ->
  ingest_loop fs archive_base latest_dirs now st files = Ok st' ->
  d ∈ documents (st_db st') ->
  d ∈ documents (st_db st) ∨
  ∃ md_file, md_file ∈ files ∧ filepath d = path_str md_file ∧
    ∃ c, fs_read_text fs md_file = Some c ∧ (doc_id d, c) ∈ documents_fts (st_db st').
Proof.
  revert st. induction files as [|md rest IH]; intros st Hwf H Hd; simpl in H.
  { injection H as <-. by left. }
  destruct (ingest_file _ _ _ _ st md) as [st1|e] eqn:Hstep; [simpl in H|done].
  destruct (ingest_file_wf _ _ _ _ _ _ _ Hwf Hstep) as [Hwf1 _].
  destruct (IH st1 Hwf1 H Hd) as [Hd1|(md' & Hin & Hfp & c & Hread & Hrec)].
  - destruct (ingest_file_content _ _ _ _ _ _ _ _ Hwf Hstep Hd1)
      as [?|(Hfp & c & Hread & Hrec)]; [by left|]. right.
    exists md. split; [by apply elem_of_cons; left|]. split; [done|].
    exists c. split; [done|].
    apply ingest_loop_appends in H as (_ & nf & _ & -> & _).
    apply elem_of_app. by left.
  - right. exists md'. split; [by apply elem_of_cons; right|]. split; [done|]. by exists c.
Qed.

(** X17. From the file to the search result. After a full rebuild that ran
    over a walk of well-formed paths, every markdown file that is a
    candidate and can be read has a document under its path whose one
    content record is the text of the file; and a search without filters
    and with a negative limit, for a well-formed query that the engine
    matches against that text, returns a row for the file. *)
Theorem full_rebuild_then_search (ARCHIVE_BASE : Path) (fs : filesystem) (now : string)
    (file : option database) (o : outcome) (db' : database)
    (md_file : Path) (content : string) :
  do_ingest ARCHIVE_BASE fs now None file = (Ok o, Some db') ->
  status o = 0 ->
  Forall well_formed_path (rglob fs ARCHIVE_BASE glob_md) ->
  md_file ∈ rglob fs ARCHIVE_BASE glob_md ->
  candidate ARCHIVE_BASE md_file = true ->
  fs_read_text fs md_file = Some content ->
  ∃ d, d ∈ documents db' ∧ filepath d = path_str md_file ∧
       (∀ c, (doc_id d, c) ∈ documents_fts db' <-> c = content) ∧
       ∀ (E : fts5) (args : search_args),
         arg_project args = None -> arg_type args = None ->
         arg_branch args = None -> arg_latest args = false ->
         arg_n args < 0 -> sqlite_int (arg_n args) = true ->
         fts5_syntax_error E (arg_pattern args) = None ->
         is_Some (fts5_rank E (arg_pattern args) (documents_fts db') (doc_id d, content)) ->
         ∃ rows r, search_rows E db' args = Ok (Fetched rows) ∧ r ∈ rows ∧
                   r_filepath r = path_str md_file.
Proof.
  intros H Hst Hwfp Hin Hcand Hread.
  destruct (ingest_indexes_readable_files_aux ARCHIVE_BASE fs now None file o db'
              md_file content H Hst Hin Hcand Hread) as (st & -> & Hloop & d & Hd & Hfp).
  assert (Hwf : wf_db (st_db st)).
  { apply ingest_loop_wf in Hloop as [? _]; [done|apply wf_db_empty]. }
  destruct (ingest_loop_content _ _ _ _ _
              (IngestState (cleared None file) 0 0) _ d wf_db_empty Hloop Hd)
    as [Hd0|(md' & Hin' & Hfp' & c & Hread' & Hrec)]; [by apply elem_of_nil in Hd0|].
  assert (md' = md_file) as ->.
  { rewrite Forall_forall in Hwfp. apply path_str_inj; [by apply Hwfp..|congruence]. }
  assert (c = content) as -> by congruence.
  exists d. split; [done|]. split; [done|]. split.
  - intros c. split; [|by intros ->].
    intros Hc. destruct Hwf as [_ _ Hrow _ _].
    by pose proof (NoDup_fmap_eq fst _ _ _ Hrow Hc Hrec eq_refl) as [= ->].
  - intros E args Hp Ht Hb Hl Hn Hint Hsyn [rk Hrk].
    unfold search_rows, execute_search. rewrite Hint, Hsyn. cbn [negb].
    eexists _, (row_of d rk). split; [done|]. split; [|done].
    unfold limit. rewrite bool_decide_eq_true_2 by done.
    unfold order_by_rank. rewrite merge_sort_Permutation.
    apply select_rows_iff. exists d, content.
    repeat split; [done..|].
    unfold where_of. by rewrite Hp, Ht, Hb, Hl.
Qed.

Lemma sample_walk_well_formed :
  Forall well_formed_path (rglob Sample.fs Sample.base glob_md).
Proof.
  assert (Hplain : ∀ s, s ≠ "" -> s ≠ "." ->
            bool_decide ("/"%char ∉ chars s) = true -> plain_segment s).
  { intros s ? ? ?%bool_decide_eq_true. by repeat split. }
  vm_compute rglob.
  repeat (apply Forall_cons; split;
    [split; [by left|];
     repeat (apply Forall_cons; split; [by apply Hplain|]); constructor|]).
  constructor.
Qed.

Lemma full_rebuild_then_search_witness :
  (∃ o db', do_ingest Sample.base Sample.fs Sample.now None None = (Ok o, Some db') ∧
     status o = 0 ∧
     Forall well_formed_path (rglob Sample.fs Sample.base glob_md) ∧
     Sample.x_md ∈ rglob Sample.fs Sample.base glob_md ∧
     candidate Sample.base Sample.x_md = true ∧
     fs_read_text Sample.fs Sample.x_md = Some "jwt rotation bug") ∧
  ∃ d, d ∈ documents (get_db Sample.indexed) ∧ filepath d = path_str Sample.x_md ∧
       (∀ c, (doc_id d, c) ∈ documents_fts (get_db Sample.indexed)
             <-> c = "jwt rotation bug") ∧
       ∀ (E : fts5) (args : search_args),
         arg_project args = None -> arg_type args = None ->
         arg_branch args = None -> arg_latest args = false ->
         arg_n args < 0 -> sqlite_int (arg_n args) = true ->
         fts5_syntax_error E (arg_pattern args) = None ->
         is_Some (fts5_rank E (arg_pattern args)
                    (documents_fts (get_db Sample.indexed)) (doc_id d, "jwt rotation bug")) ->
         ∃ rows r, search_rows E (get_db Sample.indexed) args = Ok (Fetched rows) ∧
                   r ∈ rows ∧ r_filepath r = path_str Sample.x_md.
Proof.
  assert (Hin : Sample.x_md ∈ rglob Sample.fs Sample.base glob_md).
  { vm_compute. apply elem_of_cons. by left. }
  assert (Hrun : do_ingest Sample.base Sample.fs Sample.now None None
                 = (Ok (Outcome 0 ["indexed 4 documents into /arch/archives.db";
                                   "skipped 1 files (read errors or duplicates)"] [] []),
                    Some (get_db Sample.indexed)))
    by (vm_compute; reflexivity).
  split.
  - eexists _, _. split; [exact Hrun|]. split; [reflexivity|].
    split; [exact sample_walk_well_formed|]. split; [exact Hin|].
    split; reflexivity.
  - exact (full_rebuild_then_search Sample.base Sample.fs Sample.now None _ _
             Sample.x_md "jwt rotation bug" Hrun eq_refl sample_walk_well_formed Hin
             eq_refl eq_refl).
Defined.

(** ** The picker's answer *)

Lemma lstrip_chars_app (l : list ascii) (c : ascii) (rest : list ascii) :
  is_space c = false -> ∃ pre, lstrip_chars (l ++ c :: rest) = pre ++ c :: rest.
Proof.
  intros Hc. induction l as [|x l [pre IH]]; simpl.
  - rewrite Hc. by exists [].
  - destruct (is_space x); [by exists pre|]. by exists (x :: l).
Qed.

Lemma strip_keeps_front (front : list ascii) (c : ascii) (tail : list ascii) :
  match front with x :: _ => is_space x = false | [] => False end ->
  is_space c = false ->
  ∃ tail', chars (strip (of_chars (front ++ c :: tail))) = front ++ c :: tail'.
Proof.
  intros Hfront Hc. unfold strip. rewrite !chars_of_chars.
  assert (lstrip_chars (front ++ c :: tail) = front ++ c :: tail) as ->.
  { destruct front as [|x front]; [done|]. simpl. by rewrite Hfront. }
  rewrite reverse_app, reverse_cons, <-app_assoc. simpl.
  destruct (lstrip_chars_app (reverse tail) c (reverse front) Hc) as [pre ->].
  exists (reverse pre). by rewrite reverse_app, reverse_cons, !reverse_involutive, <-app_assoc.
Qed.

Lemma split_on_aux_nonempty (sep : ascii) (cur l : list ascii) :
  split_on_aux sep cur l ≠ [].
Proof.
  revert cur. induction l as [|c l IH]; intros cur; simpl; [done|].
  destruct (decide (c = sep)); [done|apply IH].
Qed.

(** X18. The picker's answer is read back to the row it came from. When
    the picker ends with code 0 and prints the line that [_fzf_pick] wrote
    for a row, and the file path of that row contains no tab and begins
    with a character that is not white space, the path opened, or printed
    under [--file-name], is the file path of that row. *)
Theorem fzf_pick_round_trip (fs : filesystem) (tm : terminal) (rows : list row)
    (pattern : string) (open_file : bool) (r : row) :
  run_fzf tm pattern (fzf_input fs pattern rows)
    = Some (0, fzf_line (show_row fs pattern r) +:+ String LF EmptyString) ->
  TAB ∉ chars (r_filepath r) ->
  match chars (r_filepath r) with x :: _ => is_space x = false | [] => False end ->
  _fzf_pick fs tm rows pattern open_file =
    Ok (if open_file then Outcome 0 [] [] [r_filepath r]
        else Outcome 0 [r_filepath r] [] []).
Proof.
  intros Hrun Htab Hfirst. unfold _fzf_pick. fold (fzf_input fs pattern rows).
  rewrite Hrun. rewrite (bool_decide_eq_false_2 (0 ≠ 0)) by (intros H0; by apply H0).
  set (fp := r_filepath r) in *.
  assert (Hline : ∃ mid tail,
    chars (fzf_line (show_row fs pattern r) +:+ String LF EmptyString)
    = (chars fp ++ TAB :: mid) ++ "["%char :: tail).
  { unfold fzf_line, show_row. cbn [sh_filepath sh_lineno sh_score sh_rel].
    fold fp. rewrite !chars_app. simpl (chars (String TAB EmptyString)).
    simpl (chars "[").
    eexists (chars (pretty (_find_match_line fs fp pattern)) ++ [TAB]), _.
    rewrite <-!app_assoc. simpl. rewrite <-!app_assoc. simpl. reflexivity. }
  destruct Hline as (mid & tail & Hline).
  destruct (strip_keeps_front (chars fp ++ TAB :: mid) "["%char tail) as [tail' Hstrip].
  { destruct (chars fp); [done|]. done. }
  { done. }
  rewrite <-Hline, of_chars_chars in Hstrip.
  assert (Hne : strip (fzf_line (show_row fs pattern r) +:+ String LF EmptyString)
                ≠ EmptyString).
  { intros Heq. rewrite Heq in Hstrip. by destruct (chars fp). }
  rewrite (bool_decide_eq_false_2 _ Hne). cbn [orb].
  unfold split_on. rewrite Hstrip, <-app_assoc. simpl.
  rewrite split_on_aux_sep by done. simpl. rewrite of_chars_chars.
  destruct (split_on_aux TAB [] (mid ++ "["%char :: tail')) as [|x rest] eqn:Hsplit;
    [by apply split_on_aux_nonempty in Hsplit|].
  by destruct open_file.
Qed.

Lemma fzf_pick_round_trip_witness :
  let rows := [Row "/arch/proj/main/20240101_120000/plans/x.md" "proj" "main"
                   "20240101_120000" (Some "plans") "x.md" (Q2Qc (inject_Z (-1)))] in
  let r := Row "/arch/proj/main/20240101_120000/plans/x.md" "proj" "main"
               "20240101_120000" (Some "plans") "x.md" (Q2Qc (inject_Z (-1))) in
  (run_fzf first_line_picker "jwt" (fzf_input Sample.fs "jwt" rows)
     = Some (0, fzf_line (show_row Sample.fs "jwt" r) +:+ String LF EmptyString) ∧
   (TAB ∉ chars (r_filepath r)) ∧
   (match chars (r_filepath r) with x :: _ => is_space x = false | [] => False end)) ∧
  _fzf_pick Sample.fs first_line_picker rows "jwt" true =
    Ok (Outcome 0 [] [] ["/arch/proj/main/20240101_120000/plans/x.md"]).
Proof.
  assert (H1 : run_fzf first_line_picker "jwt"
                 (fzf_input Sample.fs "jwt"
                    [Row "/arch/proj/main/20240101_120000/plans/x.md" "proj" "main"
                         "20240101_120000" (Some "plans") "x.md" (Q2Qc (inject_Z (-1)))])
               = Some (0, fzf_line (show_row Sample.fs "jwt"
                    (Row "/arch/proj/main/20240101_120000/plans/x.md" "proj" "main"
                         "20240101_120000" (Some "plans") "x.md" (Q2Qc (inject_Z (-1)))))
                          +:+ String LF EmptyString))
    by (vm_compute; reflexivity).
  assert (H2 : TAB ∉ chars "/arch/proj/main/20240101_120000/plans/x.md").
  { apply (bool_decide_unpack _). vm_compute. exact I. }
  split; [split; [exact H1|split; [exact H2|reflexivity]]|].
  exact (fzf_pick_round_trip Sample.fs first_line_picker _ "jwt" true _ H1 H2 eq_refl).
Defined.



(** ** Rebuilding again *)

(** X20. A full rebuild does not depend on the index it replaces: when the
    archive root exists, two full rebuilds of the same tree at the same
    time end alike and leave the same index whatever the database held
    before; so a full rebuild run a second time on its own result changes
    nothing. *)
Theorem full_rebuild_idempotent (ARCHIVE_BASE : Path) (fs : filesystem) (now : string)
    (file1 file2 : option database) :
  fs_exists fs ARCHIVE_BASE = true ->
  do_ingest ARCHIVE_BASE fs now None file1 = do_ingest ARCHIVE_BASE fs now None file2 ∧
  do_ingest ARCHIVE_BASE fs now None (do_ingest ARCHIVE_BASE fs now None file1).2
    = do_ingest ARCHIVE_BASE fs now None file1.
Proof.
  intros Hbase.
  assert (H : ∀ f1 f2, do_ingest ARCHIVE_BASE fs now None f1
                       = do_ingest ARCHIVE_BASE fs now None f2).
  { intros f1 f2. unfold do_ingest, cleared, scan_root_of. rewrite Hbase. by cbn. }
  split; apply H.
Qed.

Lemma full_rebuild_idempotent_witness :
  fs_exists Sample.fs Sample.base = true ∧
  do_ingest Sample.base Sample.fs Sample.now None None
    = do_ingest Sample.base Sample.fs Sample.now None Sample.indexed ∧
  do_ingest Sample.base Sample.fs Sample.now None
      (do_ingest Sample.base Sample.fs Sample.now None None).2
    = do_ingest Sample.base Sample.fs Sample.now None None.
Proof.
  split; [reflexivity|].
  exact (full_rebuild_idempotent Sample.base Sample.fs Sample.now None Sample.indexed
           eq_refl).
Defined.
